(** * pygts: a shallow embedding of the fetch and classification core

    The development follows the Python sources
    - [pygts/data_fetcher.py]: [species_exists], [request_data],
      [fetch_species_data_parallel];
    - [pygts/visualizer.py]: [extract_locations];
    - [pygts/utils.py]: [load_species_data].

    Python values are an inductive type, exceptions carry their class, a
    call either returns or raises, and the [print] calls of the source are
    collected in a list of lines. *)

From Stdlib Require Import ZArith Ascii String.
From stdpp Require Import base list strings gmap.
From stdpp Require Import pretty.

Local Open Scope Z_scope.
Local Set Warnings "-register-all,-clear-no-such-hyp".

(** ** Python values and exceptions *)

Module Py.

(** The values [response.json()] can produce (the JSON fragment of Python)
    with numbers restricted to integers. A dict is kept as the list of its
    items; [dict_get] reads the binding of a key. *)
Inductive value : Type :=
  | VNone
  | VBool (b : bool)
  | VInt (z : Z)
  | VStr (s : string)
  | VList (l : list value)
  | VDict (d : list (string * value)).

(** [bool(v)] *)
Definition truthy (v : value) : bool :=
  match v with
  | VNone => false
  | VBool b => b
  | VInt z => negb (z =? 0)
  | VStr s => negb (String.eqb s "")
  | VList l => negb (Nat.eqb (length l) 0)
  | VDict d => negb (Nat.eqb (length d) 0)
  end.

(** [isinstance(v, list)] *)
Definition is_list (v : value) : bool :=
  match v with VList _ => true | _ => false end.

(** [isinstance(v, dict)] *)
Definition is_dict (v : value) : bool :=
  match v with VDict _ => true | _ => false end.

Fixpoint assoc (k : string) (d : list (string * value)) : option value :=
  match d with
  | [] => None
  | (k', v) :: d' => if String.eqb k k' then Some v else assoc k d'
  end.

(** [d.get(k, default)] on the items of a dict *)
Definition dict_get (d : list (string * value)) (k : string) (default : value) : value :=
  match assoc k d with
  | Some v => v
  | None => default
  end.

(** The exception classes the handlers of the source tell apart.
    [Timeout], [ConnectionError] (which covers a failed DNS resolution),
    [HTTPError] and [RequestsJSONDecodeError] derive from
    [requests.exceptions.RequestException]; [KeyboardInterrupt] and
    [SystemExit] derive from [BaseException] only. *)
Inductive exn_class : Type :=
  | Timeout
  | ConnectionError
  | HTTPError
  | RequestsJSONDecodeError
  | KeyError
  | IndexError
  | ValueError
  | TypeError
  | AttributeError
  | PlainException
  | KeyboardInterrupt
  | SystemExit.

Record exn : Type := Exn { exn_cls : exn_class; exn_msg : string }.

(** [isinstance(e, requests.exceptions.RequestException)] *)
Definition is_RequestException (e : exn) : bool :=
  match exn_cls e with
  | Timeout | ConnectionError | HTTPError | RequestsJSONDecodeError => true
  | _ => false
  end.

(** [isinstance(e, (KeyError, IndexError, ValueError, TypeError))] *)
Definition is_parsing_error (e : exn) : bool :=
  match exn_cls e with
  | KeyError | IndexError | ValueError | TypeError => true
  | _ => false
  end.

(** [isinstance(e, Exception)] *)
Definition is_Exception (e : exn) : bool :=
  match exn_cls e with
  | KeyboardInterrupt | SystemExit => false
  | _ => true
  end.

(** A call returns a value or raises. *)
Inductive result (A : Type) : Type :=
  | Return (a : A)
  | Raise (e : exn).
Arguments Return {A} a.
Arguments Raise {A} e.

Definition bind {A B : Type} (r : result A) (k : A -> result B) : result B :=
  match r with
  | Return a => k a
  | Raise e => Raise e
  end.

(** [try: body  except <handlers>] where [handler e = None] means that
    no [except] clause matches [e]. *)
Definition try_except {A : Type} (body : result A) (handler : exn -> option (result A)) : result A :=
  match body with
  | Return a => Return a
  | Raise e =>
      match handler e with
      | Some r => r
      | None => Raise e
      end
  end.

End Py.

Import Py.

#[export] Instance result_ret : MRet result := @Return.
#[export] Instance result_bind : MBind result := fun A B k r => bind r k.

(** ** The HTTP client seen from the call sites *)

(** A [requests.Response] as far as the source uses it:
    [raise_for_status()] returns or raises [HTTPError], [json()] returns the
    parsed body or raises. *)
Record Response : Type := mkResponse {
  raise_for_status : result unit;
  json : result value
}.

Module DataFetcher.

Section WithTransport.

(** [requests.get(url, timeout=10)] *)
Variable requests_get : string -> result Response.

Definition url_of (genus species : string) : string :=
  "https://data.bgci.org/treesearch/genus/" +:+ genus +:+ "/species/" +:+ species.

(** [type(obj).__name__] *)
Definition type_name (obj : value) : string :=
  match obj with
  | VNone => "NoneType"
  | VBool _ => "bool"
  | VInt _ => "int"
  | VStr _ => "str"
  | VList _ => "list"
  | VDict _ => "dict"
  end.

(** [obj.get(key, default)]: an [AttributeError] unless [obj] is a dict. *)
Definition method_get (obj : value) (key : string) (default : value) : result value :=
  match obj with
  | VDict d => Return (dict_get d key default)
  | _ => Raise (Exn AttributeError
                  ("'" +:+ type_name obj +:+ "' object has no attribute 'get'"))
  end.

(** The body of the [try] of [species_exists]. *)
Definition species_exists_body (genus species : string) : result bool :=
  response ← requests_get (url_of genus species);
  _ ← raise_for_status response;
  response_dict ← json response;
  results ← method_get response_dict "results" (VList []);
  Return (truthy results && is_list results &&
          match results with
          | VList l => Nat.ltb 0 (length l)
          | _ => false
          end).

Definition species_exists (genus species : string) : result bool :=
  try_except (species_exists_body genus species)
    (fun e => if is_Exception e then Some (Return false) else None).

(** [request_data] returns its value together with the lines it printed. *)
Definition request_data_body (genus species : string) : result value :=
  response ← requests_get (url_of genus species);
  _ ← raise_for_status response;
  response_dict ← json response;
  results ← method_get response_dict "results" (VList []);
  if negb (truthy results) || negb (is_list results) then Return VNone
  else
    match results with
    | VList (first_result :: _) =>
        if negb (is_dict first_result) then Return VNone
        else
          countries_dicts ← method_get first_result "TSGeolinks" (VList []);
          Return (if truthy countries_dicts then countries_dicts else VNone)
    | _ => Raise (Exn IndexError "list index out of range")  (* [results[0]] *)
    end.

Definition diagnostic (prefix genus species : string) (e : exn) : string :=
  prefix +:+ genus +:+ " " +:+ species +:+ ": " +:+ exn_msg e.

Definition request_data (genus species : string) : result (list string * value) :=
  try_except (v ← request_data_body genus species; Return ([], v))
    (fun e =>
       if is_RequestException e then
         Some (Return ([diagnostic "Request error for " genus species e], VNone))
       else if is_parsing_error e then
         Some (Return ([diagnostic "Data parsing error for " genus species e], VNone))
       else if is_Exception e then
         Some (Return ([diagnostic "Unexpected error for " genus species e], VNone))
       else None).

End WithTransport.

(** *** The batch input *)

(** A row of the frame, with the two columns the fetcher reads. *)
Record Row : Type := mkRow { Genus : string; Species : string }.

(** A [pandas.DataFrame] as [iterrows()] presents it: the rows in order,
    each with its index label. *)
Definition DataFrame : Type := list (Z * Row).

(** The frame built from a sequence of queries, as
    [pd.DataFrame({"Genus": [...], "Species": [...]})] and [pd.read_csv] do:
    the labels are the positions [0, 1, ..]. *)
Definition batch_frame (queries : list Row) : DataFrame :=
  imap (fun i row => (Z.of_nat i, row)) queries.

(** [l[idx] = v] on a Python list: negative indices count from the end, an
    index outside [-len(l), len(l)) raises [IndexError]. *)
Definition list_setitem (l : list value) (idx : Z) (v : value) : result (list value) :=
  let n := Z.of_nat (length l) in
  if (0 <=? idx) && (idx <? n) then Return (<[Z.to_nat idx := v]> l)
  else if (- n <=? idx) && (idx <? 0) then Return (<[Z.to_nat (idx + n) := v]> l)
  else Raise (Exn IndexError "list assignment index out of range").

(** [ThreadPoolExecutor(max_workers=max_workers)] *)
Definition ThreadPoolExecutor (max_workers : Z) : result unit :=
  if max_workers <=? 0 then Raise (Exn ValueError "max_workers must be greater than 0")
  else Return tt.

(** [as_completed(futures)] yields every future once, in the order in which
    they complete; [schedule] lists the submission positions in that order. *)
Definition as_completed {A : Type} (futures : list A) (schedule : list nat) : list A :=
  omap (fun p => futures !! p) schedule.

(** The local variables the collecting loop updates. *)
Record Progress : Type := mkProgress {
  results : list value;
  failed_count : nat;
  success_count : nat
}.

Definition is_None (v : value) : bool :=
  match v with VNone => true | _ => false end.

(** [{"error": str(e)}] *)
Definition error_entry (e : exn) : value := VDict [("error", VStr (exn_msg e))].

(** The body of the [for future in as_completed(...)] loop. A future is the
    outcome of its task paired with [future_to_index[future]]. *)
Definition collect (st : Progress) (future : result value * Z) : result Progress :=
  let idx := future.2 in
  try_except
    (result ← future.1;
     results' ← list_setitem (results st) idx result;
     Return (if is_None result
             then mkProgress results' (S (failed_count st)) (success_count st)
             else mkProgress results' (failed_count st) (S (success_count st))))
    (fun e =>
       if is_Exception e then
         Some (results' ← list_setitem (results st) idx (error_entry e);
               Return (mkProgress results' (S (failed_count st)) (success_count st)))
       else None).

Fixpoint for_each {A S : Type} (body : S -> A -> result S) (st : S) (l : list A) : result S :=
  match l with
  | [] => Return st
  | x :: l' => st' ← body st x; for_each body st' l'
  end.

(** [{executor.submit(task, row["Genus"], row["Species"]): idx
      for idx, row in species_df.iterrows()}]: the futures in submission
    order, each with the index label of its row. *)
Definition submit_all (task : string -> string -> result value)
    (species_df : DataFrame) : list (result value * Z) :=
  (fun '(idx, row) => (task (Genus row) (Species row), idx)) <$> species_df.

(** [fetch_species_data_parallel(species_df, max_workers)]. [task] is the
    callable submitted to the pool (the module-level [request_data]);
    [schedule] is the completion order of the futures. The result is the
    returned list together with the two counts of the summary line. *)
Definition fetch_species_data_parallel
    (task : string -> string -> result value)
    (species_df : DataFrame) (max_workers : Z) (schedule : list nat) : result Progress :=
  let results0 := replicate (length species_df) VNone in
  _ ← ThreadPoolExecutor max_workers;
  let future_to_index := submit_all task species_df in
  for_each collect (mkProgress results0 0 0) (as_completed future_to_index schedule).

(** The task the source submits: [request_data] over a transport, its
    printed lines left out. *)
Definition request_data_task (requests_get : string -> result Response)
    (genus species : string) : result value :=
  r ← request_data requests_get genus species; Return r.2.

(** Mapping a lookup over the rows one after the other, in input order:
    [[lookup(row["Genus"], row["Species"]) for row in rows]]. *)
Definition sequential_map (lookup : string -> string -> value) (queries : list Row) : list value :=
  (fun row => lookup (Genus row) (Species row)) <$> queries.

End DataFetcher.

(** ** [pygts/visualizer.py] *)

Module Visualizer.

(** An entry of [geo_data]. A field is [None] when the key is absent or
    bound to JSON [null]: [entry.get(key)] is [None] in both cases. *)
Record LocationRecord : Type := mkLocation {
  country : option string;
  province : option string;
  uncertainty : option string
}.

(** The two accumulators of the loop: the set [countries_only] and the list
    [country_province_pairs]. *)
Record Locations : Type := mkLocations {
  countries_only : gset string;
  country_province_pairs : list (string * string)
}.

(** Truth value of [entry.get(key)]: a non-empty string. *)
Definition present (field : option string) : option string :=
  match field with
  | Some s => if String.eqb s "" then None else Some s
  | None => None
  end.

(** The body of [for entry in geo_data]. *)
Definition visit (acc : Locations) (entry : LocationRecord) : Locations :=
  match present (country entry) with
  | Some c =>
      match present (province entry) with
      | Some p => mkLocations (countries_only acc) (country_province_pairs acc ++ [(c, p)])
      | None => mkLocations (countries_only acc ∪ {[ c ]}) (country_province_pairs acc)
      end
  | None => acc
  end.

Definition classify (geo_data : list LocationRecord) : Locations :=
  foldl visit (mkLocations ∅ []) geo_data.

(** [extract_locations(geo_data)]: [list(countries_only)] enumerates the set
    once, in an order the language leaves open. *)
Definition extract_locations (geo_data : list LocationRecord) : list string * list (string * string) :=
  let acc := classify geo_data in
  (elements (countries_only acc), country_province_pairs acc).

End Visualizer.

(** ** [pygts/utils.py] *)

Module Utils.

Definition space : ascii := " "%char.

(** [s.split(" ")]: the fields between single space characters; there is
    always at least one field. *)
Fixpoint split_space (s : string) : list string :=
  match s with
  | EmptyString => [EmptyString]
  | String c s' =>
      if Ascii.eqb c space then EmptyString :: split_space s'
      else
        match split_space s' with
        | field :: fields => String c field :: fields
        | [] => [String c EmptyString]
        end
  end.

(** [l[i]] *)
Definition getitem {A : Type} (l : list A) (i : nat) : result A :=
  match l !! i with
  | Some x => Return x
  | None => Raise (Exn IndexError "list index out of range")
  end.

(** [column.apply(f)]: [f] on every cell in row order; the first cell on
    which [f] raises ends the call. *)
Fixpoint apply {A B : Type} (f : A -> result B) (column : list A) : result (list B) :=
  match column with
  | [] => Return []
  | x :: column' => y ← f x; ys ← apply f column'; Return (y :: ys)
  end.

Record SpeciesRow : Type := mkSpeciesRow {
  TaxonName : string;
  Genus : string;
  Species : string
}.

(** [load_species_data(csv_path)] from the [TaxonName] column on: the
    argument lists [str(x)] for every cell [x] of that column. *)
Definition load_species_data (taxon_names : list string) : result (list SpeciesRow) :=
  genus ← apply (fun x => getitem (split_space x) 0) taxon_names;
  species ← apply (fun x => getitem (split_space x) 1) taxon_names;
  Return (zip_with (fun name gs => mkSpeciesRow name gs.1 gs.2) taxon_names (zip genus species)).

(** The ASCII characters [str.split()] treats as white space, those for
    which [str.isspace()] holds: tab, line feed, vertical tab, form feed,
    carriage return (9 to 13), the four separators 28 to 31, and space. *)
Definition is_whitespace (c : ascii) : bool :=
  let n := nat_of_ascii c in
  (Nat.eqb n 32 || (Nat.leb 9 n && Nat.leb n 13) || (Nat.leb 28 n && Nat.leb n 31))%bool.

(** Whitespace-separated tokens, as the tabular input is described: the
    maximal runs of characters that are not white space. [word] is the run
    read so far. *)
Fixpoint tokens_from (word : string) (s : string) : list string :=
  match s with
  | EmptyString => if String.eqb word "" then [] else [word]
  | String c s' =>
      if is_whitespace c then
        if String.eqb word "" then tokens_from "" s' else word :: tokens_from "" s'
      else tokens_from (word +:+ String c EmptyString) s'
  end.

Definition whitespace_tokens (s : string) : list string := tokens_from "" s.

End Utils.

(** ** [pygts/cli.py] *)

Module Cli.

(** [sys.exit(code)] raises [SystemExit(code)]. *)
Definition sys_exit {A : Type} (code : Z) : result A :=
  Raise (Exn SystemExit (pretty code)).

(** [cli_check(args)] with [args.genus] and [args.species]: the lines it
    prints and the way the call ends. *)
Definition cli_check (requests_get : string -> result Response)
    (genus species : string) : list string * result unit :=
  match DataFetcher.species_exists requests_get genus species with
  | Return found =>
      if found then
        (["✓ " +:+ genus +:+ " " +:+ species +:+ " exists in the database"], sys_exit 0)
      else
        (["✗ " +:+ genus +:+ " " +:+ species +:+ " not found in the database"], sys_exit 1)
  | Raise e => ([], Raise e)
  end.

End Cli.

(** ** [pygts/visualizer.py]: marking the polygons *)

(** The part of [plot_species_distribution] between the loading of the two
    tables and the drawing. A row of the country table is its [NAME], a row
    of the province table is its [admin] and its [name]; a column of flags
    is a list of booleans, one per row. *)
Module Marking.

(** [world["NAME"].isin(countries_only)] *)
Definition isin (names : list string) (countries_only : list string) : list bool :=
  (fun name => bool_decide (name ∈ countries_only)) <$> names.

(** [(provinces["admin"] == country) & (provinces["name"] == province)] *)
Definition mask (provinces : list (string * string)) (country province : string) : list bool :=
  (fun row => String.eqb row.1 country && String.eqb row.2 province) <$> provinces.

(** [provinces.loc[mask, "species_present"] = True] *)
Definition assign_true (column mask : list bool) : list bool :=
  zip_with (fun present selected : bool => if selected then true else present) column mask.

(** [provinces["species_present"] = False] followed by the loop over
    [country_province_pairs]. *)
Definition mark_provinces (provinces : list (string * string))
    (country_province_pairs : list (string * string)) : list bool :=
  foldl (fun column pair => assign_true column (mask provinces pair.1 pair.2))
        (replicate (length provinces) false) country_province_pairs.

(** [column.any()] *)
Definition any (column : list bool) : bool := existsb (fun present : bool => present) column.

End Marking.

(** ** Vocabulary of the statements *)

Import DataFetcher.

Section Outcomes.

Variable requests_get : string -> result Response.
Variables genus species : string.

(** The ways in which the request made for a query can raise: in
    [requests.get] (timeout, connection or DNS failure), in
    [raise_for_status] (non-success status), or in [json] (a body that is
    not JSON). *)
Inductive transport_fault (e : exn) : Prop :=
  | get_fault :
      requests_get (url_of genus species) = Raise e -> transport_fault e
  | status_fault response :
      requests_get (url_of genus species) = Return response ->
      raise_for_status response = Raise e -> transport_fault e
  | json_fault response :
      requests_get (url_of genus species) = Return response ->
      raise_for_status response = Return tt ->
      json response = Raise e -> transport_fault e.

(** The request went through and its body parsed to [body]. *)
Definition transport_body (body : value) : Prop :=
  exists response,
    requests_get (url_of genus species) = Return response /\
    raise_for_status response = Return tt /\
    json response = Return body.

End Outcomes.

(** A transport that answers every request with status success and the
    parsed body [body]. *)
Definition serving (body : value) : string -> result Response :=
  fun _ => Return (mkResponse (Return tt) (Return body)).

(** A transport on which [requests.get] raises [e]. *)
Definition failing (e : exn) : string -> result Response :=
  fun _ => Raise e.

(** Bodies and faults used as concrete cases below. *)
Definition two_results_body : value :=
  VDict [("results",
          VList [VDict [("TSGeolinks", VList [VDict [("country", VStr "Brazil")]])];
                 VDict [("TSGeolinks", VList [VDict [("country", VStr "France")]])]])].

Definition mapping_results_body : value :=
  VDict [("results", VDict [("count", VInt 1)])].

Definition string_results_body : value :=
  VDict [("results", VStr "Abarema cochliocarpos")].

Definition timed_out : exn := Exn Timeout "timed out".

Definition network_error : exn := Exn ConnectionError "Network error".

(** The records of the classifier's example, and a country listed once
    with a province and once without. *)
Definition brazil_france : list Visualizer.LocationRecord :=
  [Visualizer.mkLocation (Some "Brazil") (Some "Bahia") None;
   Visualizer.mkLocation (Some "Brazil") (Some "Ceará") None;
   Visualizer.mkLocation (Some "France") None None].

Definition brazil_twice : list Visualizer.LocationRecord :=
  [Visualizer.mkLocation (Some "Brazil") (Some "Bahia") None;
   Visualizer.mkLocation (Some "Brazil") None None].

(** The pair a record contributes, if it has a country and a province. *)
Definition pair_of (entry : Visualizer.LocationRecord) : option (string * string) :=
  c ← Visualizer.present (Visualizer.country entry);
  p ← Visualizer.present (Visualizer.province entry);
  Some (c, p).

(** The country a record contributes as a whole, if it has a country and no
    province. *)
Definition whole_country_of (entry : Visualizer.LocationRecord) : option string :=
  c ← Visualizer.present (Visualizer.country entry);
  match Visualizer.present (Visualizer.province entry) with
  | Some _ => None
  | None => Some c
  end.

(** [" ".join(fields)] *)
Fixpoint join_space (fields : list string) : string :=
  match fields with
  | [] => EmptyString
  | [field] => field
  | field :: fields' => field +:+ String Utils.space (join_space fields')
  end.

(** [" " in s] *)
Fixpoint contains_space (s : string) : bool :=
  match s with
  | EmptyString => false
  | String c s' => Ascii.eqb c Utils.space || contains_space s'
  end.

(** A name written with two spaces between its words. *)
Definition doubled_space_name : string := "Abarema  cochliocarpos".

(** A batch of three queries, a lookup that knows two of them, a task that
    returns what the lookup says, and a task that raises on the second. *)
Definition three_queries : list Row :=
  [mkRow "Abarema" "cochliocarpos"; mkRow "Abies" "alba"; mkRow "InvalidGenus" "invalid"].

Definition fake_lookup (genus species : string) : value :=
  if String.eqb genus "Abarema" then VList [VDict [("country", VStr "Brazil")]]
  else if String.eqb genus "Abies" then VList [VDict [("country", VStr "France")]]
  else VNone.

Definition fake_task (genus species : string) : result value :=
  Return (fake_lookup genus species).

Definition flaky_task (genus species : string) : result value :=
  if String.eqb genus "Abies" then Raise (Exn PlainException "Unexpected error")
  else Return (fake_lookup genus species).

(** The first two queries in a frame whose index labels are swapped, as
    [pd.DataFrame(..., index=[1, 0])] builds it. *)
Definition relabelled_frame : DataFrame :=
  [(1, mkRow "Abarema" "cochliocarpos"); (0, mkRow "Abies" "alba")].

(** The value [request_data] returns for a query over a transport. *)
Definition request_data_value (requests_get : string -> result Response)
    (genus species : string) : value :=
  match request_data requests_get genus species with
  | Return (_, v) => v
  | Raise _ => VNone
  end.

(** What a slot of the batch result holds for the outcome of its task. *)
Definition slot_of (outcome : result value) : value :=
  match outcome with
  | Return v => v
  | Raise e => error_entry e
  end.

(** The slot the batch result holds for a row. *)
Definition slot_for (task : string -> string -> result value) (row : Row) : value :=
  slot_of (task (Genus row) (Species row)).

(** The loop counts a future as successful when its task returned a value
    other than [None]. *)
Definition succeeded (outcome : result value) : bool :=
  match outcome with
  | Return v => negb (is_None v)
  | Raise _ => false
  end.

(** [idx] is a valid index of a Python list of length [n]. *)
Definition valid_index (n : nat) (idx : Z) : Prop :=
  - Z.of_nat n <= idx < Z.of_nat n.

(** A task interrupted on the second query. *)
Definition interrupted_task (genus species : string) : result value :=
  if String.eqb genus "Abies" then Raise (Exn KeyboardInterrupt "")
  else Return (fake_lookup genus species).

(** A frame whose second label is not an index of a list of two. *)
Definition filtered_frame : DataFrame :=
  [(0, mkRow "Abarema" "cochliocarpos"); (7, mkRow "Abies" "alba")].

(** An interrupt, as [Ctrl-C] raises it during a request. *)
Definition interrupt : exn := Exn KeyboardInterrupt "".

(** A non-success status: [raise_for_status] raises [HTTPError]. *)
Definition not_found_response : string -> result Response :=
  fun _ => Return (mkResponse (Raise (Exn HTTPError "404 Client Error")) (Return VNone)).

(** A string holds a character [str.split()] treats as white space. *)
Fixpoint contains_whitespace (s : string) : bool :=
  match s with
  | EmptyString => false
  | String c s' => Utils.is_whitespace c || contains_whitespace s'
  end.

(** A name written as its genus, its epithet and the words after them. *)
Definition name_of (words : string * string * list string) : string :=
  join_space (words.1.1 :: words.1.2 :: words.2).

(** Every word of a name satisfies [P]. *)
Definition all_words (P : string -> Prop) (words : string * string * list string) : Prop :=
  P words.1.1 /\ P words.1.2 /\ Forall P words.2.

(** The first two queries in a frame with swapped labels whose first row is
    the one the flaky task fails on, and in a frame whose two rows carry
    the same label, as [pd.concat] of two frames builds it. *)
Definition relabelled_failing_frame : DataFrame :=
  [(1, mkRow "Abies" "alba"); (0, mkRow "Abarema" "cochliocarpos")].

Definition duplicate_labels_frame : DataFrame :=
  [(0, mkRow "Abarema" "cochliocarpos"); (0, mkRow "Abies" "alba")].

(** A name of one word followed by a space. *)
Definition trailing_space_name : string := "Abarema ".

(** * Properties *)

(** ** Remote lookup and existence probe *)

Section Lookup.

Variable requests_get : string -> result Response.
Variables genus species : string.

Local Abbreviation transport_fault := (transport_fault requests_get genus species).
Local Abbreviation transport_body := (transport_body requests_get genus species).

Lemma transport_cases :
  (exists e, transport_fault e) \/ (exists body, transport_body body).
Proof.
  destruct (requests_get (url_of genus species)) as [response|e] eqn:Hget.
  - destruct (raise_for_status response) as [[]|e] eqn:Hst.
    + destruct (json response) as [body|e] eqn:Hjs.
      * right. exists body, response. auto.
      * left. exists e. eapply json_fault; eauto.
    + left. exists e. eapply status_fault; eauto.
  - left. exists e. now apply get_fault.
Qed.

Lemma request_data_body_fault e :
  transport_fault e -> request_data_body requests_get genus species = Raise e.
Proof.
  unfold request_data_body.
  intros [Hget | response Hget Hst | response Hget Hst Hjs];
    rewrite Hget; cbn; try rewrite Hst; cbn; try rewrite Hjs; reflexivity.
Qed.

Lemma species_exists_body_fault e :
  transport_fault e -> species_exists_body requests_get genus species = Raise e.
Proof.
  unfold species_exists_body.
  intros [Hget | response Hget Hst | response Hget Hst Hjs];
    rewrite Hget; cbn; try rewrite Hst; cbn; try rewrite Hjs; reflexivity.
Qed.

(** What [request_data] computes from a parsed body. *)
Lemma request_data_body_parsed body :
  transport_body body ->
  request_data_body requests_get genus species =
    (results ← method_get body "results" (VList []);
     if negb (truthy results) || negb (is_list results) then Return VNone
     else
       match results with
       | VList (first_result :: _) =>
           if negb (is_dict first_result) then Return VNone
           else
             countries_dicts ← method_get first_result "TSGeolinks" (VList []);
             Return (if truthy countries_dicts then countries_dicts else VNone)
       | _ => Raise (Exn IndexError "list index out of range")
       end).
Proof.
  intros (response & Hget & Hst & Hjs).
  unfold request_data_body. rewrite Hget. cbn. rewrite Hst. cbn. rewrite Hjs.
  reflexivity.
Qed.

Lemma species_exists_body_parsed body :
  transport_body body ->
  species_exists_body requests_get genus species =
    (results ← method_get body "results" (VList []);
     Return (truthy results && is_list results &&
             match results with
             | VList l => Nat.ltb 0 (length l)
             | _ => false
             end)).
Proof.
  intros (response & Hget & Hst & Hjs).
  unfold species_exists_body. rewrite Hget. cbn. rewrite Hst. cbn. rewrite Hjs.
  reflexivity.
Qed.

(** The handlers of [request_data] turn every [Exception] into [None] and
    one printed line. *)
Lemma request_data_handler e :
  is_Exception e = true ->
  request_data_body requests_get genus species = Raise e ->
  exists prefix,
    request_data requests_get genus species =
      Return ([diagnostic prefix genus species e], VNone).
Proof.
  intros Hexc Hbody. unfold request_data. rewrite Hbody. cbn.
  destruct (is_RequestException e); [eauto|].
  destruct (is_parsing_error e); [eauto|].
  rewrite Hexc. eauto.
Qed.

End Lookup.

Lemma serving_body body genus species :
  transport_body (serving body) genus species body.
Proof. exists (mkResponse (Return tt) (Return body)). auto. Qed.

Lemma failing_fault e genus species :
  transport_fault (failing e) genus species e.
Proof. now apply get_fault. Qed.

(** On a parsed body the [try] block of [request_data] returns, or raises
    one of the exceptions its handlers catch. *)
Lemma request_data_body_parsed_cases requests_get genus species body :
  transport_body requests_get genus species body ->
  (exists v, request_data_body requests_get genus species = Return v) \/
  (exists e, request_data_body requests_get genus species = Raise e /\
             is_Exception e = true).
Proof.
  intros Hbody. rewrite (request_data_body_parsed _ _ _ _ Hbody).
  destruct body as [| | | |l|d]; cbn; try (right; eexists; split; [reflexivity|reflexivity]).
  destruct (negb (truthy (dict_get d "results" (VList []))) ||
            negb (is_list (dict_get d "results" (VList [])))) eqn:Hres; [eauto|].
  destruct (dict_get d "results" (VList [])) as [|b|z|s|[|first rest]|d'];
    cbn in Hres; rewrite ?orb_true_r in Hres; try discriminate.
  destruct first as [| | | | |e]; cbn; eauto.
Qed.

(** C3. For every parsed response body, [request_data] returns [None] when
    [results] is absent, empty or not a list, when the first element of
    [results] is not a dict, or when its [TSGeolinks] is absent or empty;
    otherwise it returns the [TSGeolinks] value of the first element as it
    is, whatever the elements after the first are. *)
Theorem request_data_first_result requests_get genus species body :
  transport_body requests_get genus species body ->
  let out := request_data requests_get genus species in
  (is_dict body = false -> exists lines, out = Return (lines, VNone)) /\
  (forall d, body = VDict d ->
     (assoc "results" d = None -> out = Return ([], VNone)) /\
     (forall r, assoc "results" d = Some r ->
        truthy r = false \/ is_list r = false -> out = Return ([], VNone)) /\
     (forall first rest, assoc "results" d = Some (VList (first :: rest)) ->
        is_dict first = false -> out = Return ([], VNone)) /\
     (forall e rest, assoc "results" d = Some (VList (VDict e :: rest)) ->
        assoc "TSGeolinks" e = None -> out = Return ([], VNone)) /\
     (forall e rest g, assoc "results" d = Some (VList (VDict e :: rest)) ->
        assoc "TSGeolinks" e = Some g ->
        out = Return ([], if truthy g then g else VNone))).
Proof.
  intros Hbody out. subst out. unfold request_data.
  rewrite (request_data_body_parsed _ _ _ _ Hbody). split.
  - destruct body; cbn; try discriminate; eauto.
  - intros d ->. cbn. unfold dict_get. repeat split.
    + intros ->. reflexivity.
    + intros r -> [Hr | Hr]; rewrite Hr; cbn; [reflexivity|].
      now rewrite orb_true_r.
    + intros first rest -> Hfirst. cbn. now rewrite Hfirst.
    + intros e rest -> Hgeo. cbn. unfold dict_get. now rewrite Hgeo.
    + intros e rest g -> Hgeo. cbn. unfold dict_get. now rewrite Hgeo.
Qed.

Lemma request_data_first_result_witness :
  transport_body (serving two_results_body) "Abarema" "cochliocarpos" two_results_body /\
  request_data (serving two_results_body) "Abarema" "cochliocarpos" =
    Return ([], VList [VDict [("country", VStr "Brazil")]]).
Proof.
  split; [apply serving_body|].
  pose proof (request_data_first_result (serving two_results_body) "Abarema" "cochliocarpos"
                two_results_body (serving_body _ _ _)) as [_ H].
  destruct (H _ eq_refl) as (_ & _ & _ & _ & Hgeo).
  exact (Hgeo _ _ _ eq_refl eq_refl).
Defined.

Lemma request_data_returns requests_get genus species :
  (forall e, transport_fault requests_get genus species e -> is_Exception e = true) ->
  exists lines v,
    request_data requests_get genus species = Return (lines, v) /\
    (length lines <= 1)%nat.
Proof.
  intros Hexc.
  destruct (transport_cases requests_get genus species) as [[e He] | [body Hbody]].
  - destruct (request_data_handler _ _ _ e (Hexc e He)
                (request_data_body_fault _ _ _ e He)) as [prefix ->].
    eexists _, _. split; [reflexivity | cbn; lia].
  - destruct (request_data_body_parsed_cases _ _ _ _ Hbody) as [[v Hv] | (e & He & Hx)].
    + unfold request_data. rewrite Hv. cbn. eexists _, _. split; [reflexivity | cbn; lia].
    + destruct (request_data_handler _ _ _ e Hx He) as [prefix ->].
      eexists _, _. split; [reflexivity | cbn; lia].
Qed.

(** C4. [request_data] does not raise: whenever the request fails with an
    exception (in [requests.get], in the status check or in the decoding of
    the body) or the decoded body is not a dict, it returns [None], and the
    one line it prints names the query. In every case at most one line is
    printed. *)
Theorem request_data_never_raises requests_get genus species :
  (forall e, transport_fault requests_get genus species e -> is_Exception e = true) ->
  (exists lines v,
     request_data requests_get genus species = Return (lines, v) /\
     (length lines <= 1)%nat) /\
  (forall e, transport_fault requests_get genus species e ->
     exists prefix,
       request_data requests_get genus species =
         Return ([prefix +:+ genus +:+ " " +:+ species +:+ ": " +:+ exn_msg e], VNone)) /\
  (forall body, transport_body requests_get genus species body ->
     is_dict body = false ->
     exists prefix msg,
       request_data requests_get genus species =
         Return ([prefix +:+ genus +:+ " " +:+ species +:+ ": " +:+ msg], VNone)).
Proof.
  intros Hexc. repeat split.
  - now apply request_data_returns.
  - intros e He.
    exact (request_data_handler _ _ _ e (Hexc e He) (request_data_body_fault _ _ _ e He)).
  - intros body Hbody Hdict.
    unfold request_data. rewrite (request_data_body_parsed _ _ _ _ Hbody).
    destruct body; cbn; try discriminate;
      (eexists _, _; reflexivity).
Qed.

Lemma failing_only_exceptions e genus species :
  is_Exception e = true ->
  forall e', transport_fault (failing e) genus species e' -> is_Exception e' = true.
Proof.
  intros He e' [H | response H _ | response H _ _]; inversion H; now subst.
Qed.

Lemma request_data_never_raises_witness :
  (forall e', transport_fault (failing timed_out) "Abarema" "cochliocarpos" e' ->
              is_Exception e' = true) /\
  exists prefix,
    request_data (failing timed_out) "Abarema" "cochliocarpos" =
      Return ([prefix +:+ "Abarema" +:+ " " +:+ "cochliocarpos" +:+ ": " +:+ "timed out"], VNone).
Proof.
  split; [now apply failing_only_exceptions|].
  destruct (request_data_never_raises (failing timed_out) "Abarema" "cochliocarpos"
              (failing_only_exceptions timed_out _ _ eq_refl)) as (_ & H & _).
  exact (H timed_out (failing_fault _ _ _)).
Defined.

(** What [species_exists] answers on a parsed body: [True] for a dict whose
    [results] is a list with a first element, [False] otherwise. *)
Lemma species_exists_parsed requests_get genus species body :
  transport_body requests_get genus species body ->
  exists b,
    species_exists requests_get genus species = Return b /\
    (b = true <->
     exists d first rest,
       body = VDict d /\ assoc "results" d = Some (VList (first :: rest))).
Proof.
  intros Hbody. unfold species_exists.
  rewrite (species_exists_body_parsed _ _ _ _ Hbody).
  destruct body as [|b|z|s|l|d]; cbn;
    try (exists false; split; [reflexivity|];
         split; [discriminate | intros (d & ? & ? & ? & _); discriminate]).
  unfold dict_get. destruct (assoc "results" d) as [r|] eqn:Hres.
  - destruct r as [|b|z|s|[|first rest]|d'];
      try (eexists; split; [reflexivity|]; cbn; rewrite ?andb_false_r;
           split; [discriminate | intros (? & ? & ? & [= <-] & Hr); rewrite Hres in Hr; discriminate]).
    exists true. split; [reflexivity|]. split; [|reflexivity].
    intros _. now exists d, first, rest.
  - exists false. split; [reflexivity|].
    split; [discriminate | intros (? & ? & ? & [= <-] & Hr); rewrite Hres in Hr; discriminate].
Qed.

(** C8, as the code has it. [species_exists] does not raise: when the
    request raises an exception it returns [False]; when the request goes
    through it returns [True] exactly when [results] is a non-empty list. *)
Theorem species_exists_never_raises requests_get genus species :
  (forall e, transport_fault requests_get genus species e -> is_Exception e = true) ->
  (exists b, species_exists requests_get genus species = Return b) /\
  (forall e, transport_fault requests_get genus species e ->
     species_exists requests_get genus species = Return false) /\
  (forall body, transport_body requests_get genus species body ->
     exists b,
       species_exists requests_get genus species = Return b /\
       (b = true <->
        exists d first rest,
          body = VDict d /\ assoc "results" d = Some (VList (first :: rest)))).
Proof.
  intros Hexc.
  assert (Hfault : forall e, transport_fault requests_get genus species e ->
                             species_exists requests_get genus species = Return false).
  { intros e He. unfold species_exists.
    rewrite (species_exists_body_fault _ _ _ e He). cbn. now rewrite (Hexc e He). }
  repeat split.
  - destruct (transport_cases requests_get genus species) as [[e He] | [body Hbody]].
    + exists false. eauto.
    + destruct (species_exists_parsed _ _ _ _ Hbody) as (b & Hb & _). eauto.
  - exact Hfault.
  - intros body. apply species_exists_parsed.
Qed.

Lemma species_exists_never_raises_witness :
  (forall e', transport_fault (failing network_error) "Abarema" "cochliocarpos" e' ->
              is_Exception e' = true) /\
  species_exists (failing network_error) "Abarema" "cochliocarpos" = Return false.
Proof.
  split; [now apply failing_only_exceptions|].
  destruct (species_exists_never_raises (failing network_error) "Abarema" "cochliocarpos"
              (failing_only_exceptions network_error _ _ eq_refl)) as (_ & H & _).
  exact (H network_error (failing_fault _ _ _)).
Defined.

(** C8, as it is worded, fails: a [results] that is a non-empty mapping is
    non-empty, no exception occurs, and the answer is [False]. *)
Lemma species_exists_nonempty_mapping :
  transport_body (serving mapping_results_body) "Abarema" "cochliocarpos"
    mapping_results_body /\
  assoc "results" [("results", VDict [("count", VInt 1)])] = Some (VDict [("count", VInt 1)]) /\
  truthy (VDict [("count", VInt 1)]) = true /\
  species_exists (serving mapping_results_body) "Abarema" "cochliocarpos" = Return false.
Proof. split; [apply serving_body|]. repeat split. Qed.

(** C10. [species_exists] returns [True] only when [results] is a non-empty
    list; on a [results] that is truthy and not a list it returns [False],
    and [request_data] returns [None] on the same body. *)
Theorem species_exists_requires_list requests_get genus species :
  (species_exists requests_get genus species = Return true ->
   exists d first rest,
     transport_body requests_get genus species (VDict d) /\
     assoc "results" d = Some (VList (first :: rest))) /\
  (forall d r, transport_body requests_get genus species (VDict d) ->
     assoc "results" d = Some r -> truthy r = true -> is_list r = false ->
     species_exists requests_get genus species = Return false /\
     request_data requests_get genus species = Return ([], VNone)).
Proof.
  split.
  - intros Htrue.
    destruct (transport_cases requests_get genus species) as [[e He] | [body Hbody]].
    + unfold species_exists in Htrue.
      rewrite (species_exists_body_fault _ _ _ e He) in Htrue. cbn in Htrue.
      destruct (is_Exception e); discriminate.
    + destruct (species_exists_parsed _ _ _ _ Hbody) as (b & Hb & Hiff).
      rewrite Hb in Htrue. injection Htrue as ->.
      destruct (proj1 Hiff eq_refl) as (d & first & rest & -> & Hres).
      now exists d, first, rest.
  - intros d r Hbody Hres Htruthy Hlist. split.
    + destruct (species_exists_parsed _ _ _ _ Hbody) as (b & Hb & Hiff).
      rewrite Hb. f_equal. destruct b; [|reflexivity].
      destruct (proj1 Hiff eq_refl) as (d' & first & rest & [= <-] & Hres').
      rewrite Hres in Hres'. injection Hres' as ->. discriminate.
    + unfold request_data. rewrite (request_data_body_parsed _ _ _ _ Hbody).
      cbn. unfold dict_get. rewrite Hres, Hlist. cbn. now rewrite orb_true_r.
Qed.

Lemma species_exists_requires_list_witness :
  transport_body (serving string_results_body) "Abarema" "cochliocarpos"
    string_results_body /\
  species_exists (serving string_results_body) "Abarema" "cochliocarpos" = Return false /\
  request_data (serving string_results_body) "Abarema" "cochliocarpos" = Return ([], VNone).
Proof.
  split; [apply serving_body|].
  apply (proj2 (species_exists_requires_list (serving string_results_body)
                  "Abarema" "cochliocarpos")
           [("results", VStr "Abarema cochliocarpos")] (VStr "Abarema cochliocarpos"));
    [apply serving_body | reflexivity | reflexivity | reflexivity].
Defined.

(** ** Location classifier *)

Section Classifier.

Import Visualizer.

Lemma classify_from acc geo_data :
  country_province_pairs (foldl visit acc geo_data) =
    country_province_pairs acc ++ omap pair_of geo_data /\
  countries_only (foldl visit acc geo_data) =
    countries_only acc ∪ list_to_set (omap whole_country_of geo_data).
Proof.
  revert acc. induction geo_data as [|entry geo_data IH]; intros acc; cbn [foldl].
  - cbn. split; [now rewrite app_nil_r | set_solver].
  - destruct (IH (visit acc entry)) as [-> ->].
    unfold visit, pair_of, whole_country_of. cbn [omap list_omap].
    destruct (present (country entry)) as [c|]; cbn; [|done].
    destruct (present (province entry)) as [p|]; cbn.
    + split; [now rewrite <- app_assoc | done].
    + split; [done | set_solver].
Qed.

Lemma classify_pairs geo_data :
  country_province_pairs (classify geo_data) = omap pair_of geo_data.
Proof. unfold classify. now rewrite (proj1 (classify_from _ _)). Qed.

Lemma classify_countries geo_data c :
  c ∈ countries_only (classify geo_data) <->
  exists entry, entry ∈ geo_data /\ whole_country_of entry = Some c.
Proof.
  unfold classify. rewrite (proj2 (classify_from _ _)). cbn.
  rewrite elem_of_union, elem_of_list_to_set, list_elem_of_omap. set_solver.
Qed.

Lemma present_Some field s :
  present field = Some s <-> field = Some s /\ s <> EmptyString.
Proof.
  unfold present. destruct field as [t|]; [|split; [discriminate | intros [? _]; discriminate]].
  destruct (String.eqb_spec t EmptyString) as [->|Hne]; split.
  - discriminate.
  - intros [[= <-] Hne]. now destruct Hne.
  - intros [= ->]. auto.
  - now intros [[= ->] _].
Qed.

Lemma present_None field :
  present field = None <-> field = None \/ field = Some EmptyString.
Proof.
  unfold present. destruct field as [t|]; [|split; auto].
  destruct (String.eqb_spec t EmptyString) as [->|Hne]; split; auto.
  intros [H|[= ->]]; [discriminate H | now destruct Hne].
Qed.

Lemma visit_without_country acc entry :
  country entry = None \/ country entry = Some EmptyString ->
  visit acc entry = acc.
Proof. intros Hc. unfold visit. now rewrite (proj2 (present_None _) Hc). Qed.

(** C6. [extract_locations] leaves out every record whose country is absent
    or empty, lists once each country of a record with a country and no
    province, and lists a (country, province) pair for every record with a
    country and a non-empty province, in input order and with repetitions.
    On the empty list both outputs are empty; on the Brazil and France
    records the outputs are France and the two Brazilian pairs. *)
Theorem extract_locations_classifies geo_data :
  (extract_locations geo_data).2 = omap pair_of geo_data /\
  NoDup (extract_locations geo_data).1 /\
  (forall c, c ∈ (extract_locations geo_data).1 <->
     exists entry, entry ∈ geo_data /\
       country entry = Some c /\ c <> EmptyString /\
       (province entry = None \/
        province entry = Some EmptyString)) /\
  (forall before entry after,
     geo_data = before ++ entry :: after ->
     country entry = None \/ country entry = Some EmptyString ->
     extract_locations geo_data = extract_locations (before ++ after)) /\
  extract_locations [] = ([], []) /\
  extract_locations brazil_france =
    (["France"], [("Brazil", "Bahia"); ("Brazil", "Ceará")]).
Proof.
  unfold extract_locations. cbn [fst snd].
  split; [|split; [|split; [|split; [|split]]]]; [| |intros c; split| | |].
  - apply classify_pairs.
  - apply NoDup_elements.
  - rewrite elem_of_elements, classify_countries.
    intros (entry & Hin & Hwhole). exists entry. split; [exact Hin|].
    unfold whole_country_of in Hwhole.
    destruct (present (country entry)) as [c'|] eqn:Hc; [|discriminate].
    cbn in Hwhole.
    destruct (present (province entry)) eqn:Hp; [discriminate|].
    injection Hwhole as ->.
    apply present_Some in Hc as [Hc Hne]. apply present_None in Hp. auto.
  - intros (entry & Hin & Hc & Hne & Hp).
    rewrite elem_of_elements, classify_countries. exists entry. split; [exact Hin|].
    unfold whole_country_of.
    rewrite (proj2 (present_Some _ _) (conj Hc Hne)). cbn.
    now rewrite (proj2 (present_None _) Hp).
  - intros before entry after -> Hc.
    unfold classify. rewrite !foldl_app. cbn [foldl].
    now rewrite (visit_without_country _ _ Hc).
  - reflexivity.
  - vm_compute. reflexivity.
Qed.

(** C7, as it is worded, fails: Brazil is listed as a whole although
    another record of Brazil carries the province Bahia. *)
Lemma whole_country_with_province_elsewhere :
  "Brazil" ∈ (extract_locations brazil_twice).1 /\
  mkLocation (Some "Brazil") (Some "Bahia") None ∈ brazil_twice.
Proof.
  split; [|apply list_elem_of_here].
  apply (proj2 (list_elem_of_In _ _)). vm_compute. auto.
Qed.

(** C7, as the code has it. Every country in the first output is the
    country of at least one input record that carries no province. *)
Theorem countries_only_have_a_record_without_province geo_data c :
  c ∈ (extract_locations geo_data).1 ->
  exists entry, entry ∈ geo_data /\
    country entry = Some c /\ c <> EmptyString /\
    (province entry = None \/ province entry = Some EmptyString).
Proof.
  unfold extract_locations. cbn [fst].
  rewrite elem_of_elements, classify_countries.
  intros (entry & Hin & Hwhole). exists entry. split; [exact Hin|].
  unfold whole_country_of in Hwhole.
  destruct (present (country entry)) as [c'|] eqn:Hc; [|discriminate].
  cbn in Hwhole.
  destruct (present (province entry)) eqn:Hp; [discriminate|].
  injection Hwhole as ->.
  apply present_Some in Hc as [Hc Hne]. apply present_None in Hp. auto.
Qed.

Lemma countries_only_have_a_record_without_province_witness :
  "Brazil" ∈ (extract_locations brazil_twice).1 /\
  exists entry, entry ∈ brazil_twice /\
    country entry = Some "Brazil" /\ "Brazil" <> EmptyString /\
    (province entry = None \/ province entry = Some EmptyString).
Proof.
  assert (Hin : "Brazil" ∈ (extract_locations brazil_twice).1).
  { apply (proj2 (list_elem_of_In _ _)). vm_compute. auto. }
  split; [exact Hin|].
  exact (countries_only_have_a_record_without_province brazil_twice "Brazil" Hin).
Defined.

End Classifier.

(** ** Loading the tabular input *)

Section Loading.

Import Utils.

Lemma split_space_nonempty s : split_space s <> [].
Proof.
  destruct s as [|c s]; cbn; [discriminate|].
  destruct (Ascii.eqb c space); [discriminate|].
  destruct (split_space s); discriminate.
Qed.

Lemma split_space_join s : join_space (split_space s) = s.
Proof.
  induction s as [|c s IH]; cbn; [reflexivity|].
  destruct (Ascii.eqb_spec c space) as [->|Hne].
  - cbn. destruct (split_space s) as [|field fields] eqn:Hs.
    + now destruct (split_space_nonempty s).
    + now rewrite IH.
  - destruct (split_space s) as [|field fields] eqn:Hs.
    + now destruct (split_space_nonempty s).
    + cbn in *. destruct fields; cbn in *; now rewrite <- IH.
Qed.

Lemma split_space_fields s :
  Forall (fun field => contains_space field = false) (split_space s).
Proof.
  induction s as [|c s IH]; cbn; [repeat constructor|].
  destruct (Ascii.eqb c space) eqn:Hc.
  - constructor; [reflexivity | exact IH].
  - destruct (split_space s) as [|field fields]; [repeat constructor; cbn; now rewrite Hc|].
    inversion IH as [|? ? Hfield Hfields]; subst.
    constructor; [cbn; now rewrite Hc | exact Hfields].
Qed.

Lemma split_space_second s :
  contains_space s = true <-> exists genus species fields,
    split_space s = genus :: species :: fields.
Proof.
  induction s as [|c s IH]; cbn.
  - split; [discriminate | intros (? & ? & ? & [=])].
  - destruct (Ascii.eqb c space) eqn:Hc; cbn.
    + split; [intros _ | reflexivity].
      destruct (split_space s) as [|field fields] eqn:Hs;
        [now destruct (split_space_nonempty s) | eauto].
    + rewrite IH. destruct (split_space s) as [|field [|field' fields]].
      * split; intros (? & ? & ? & [=]).
      * split; intros (? & ? & ? & [=]).
      * split; intros _; eauto.
Qed.

Lemma apply_total {A B : Type} (f : A -> result B) (g : A -> B) column :
  (forall x, x ∈ column -> f x = Return (g x)) ->
  apply f column = Return (g <$> column).
Proof.
  induction column as [|x column IH]; intros Hf; cbn; [reflexivity|].
  rewrite (Hf x) by apply list_elem_of_here. cbn.
  rewrite IH by (intros y Hy; apply Hf; now apply list_elem_of_further).
  reflexivity.
Qed.

Lemma apply_raises {A B : Type} (f : A -> result B) e column :
  (forall x, f x = Raise e \/ exists y, f x = Return y) ->
  Exists (fun x => f x = Raise e) column ->
  apply f column = Raise e.
Proof.
  intros Hf. induction 1 as [x column Hx | x column _ IH]; cbn.
  - now rewrite Hx.
  - destruct (Hf x) as [-> | [y ->]]; [reflexivity|]. cbn. now rewrite IH.
Qed.

Lemma genus_column taxon_names :
  apply (fun x => getitem (split_space x) 0) taxon_names =
    Return ((fun x => default EmptyString (split_space x !! 0%nat)) <$> taxon_names).
Proof.
  apply apply_total. intros x _. unfold getitem.
  destruct (split_space x) eqn:Hs; [now destruct (split_space_nonempty x) | reflexivity].
Qed.

Lemma species_column taxon_names :
  Forall (fun name => contains_space name = true) taxon_names ->
  apply (fun x => getitem (split_space x) 1) taxon_names =
    Return ((fun x => default EmptyString (split_space x !! 1%nat)) <$> taxon_names).
Proof.
  intros Hall. apply apply_total. intros x Hx. unfold getitem.
  rewrite Forall_forall in Hall.
  destruct (proj1 (split_space_second x) (Hall x Hx)) as (g & sp & fields & ->).
  reflexivity.
Qed.

Lemma species_column_raises taxon_names :
  Exists (fun name => contains_space name = false) taxon_names ->
  apply (fun x => getitem (split_space x) 1) taxon_names =
    Raise (Exn IndexError "list index out of range").
Proof.
  intros Hex. apply apply_raises.
  - intros x. unfold getitem. destruct (split_space x !! 1%nat); eauto.
  - eapply Exists_impl; [exact Hex|]. cbn. intros x Hx. unfold getitem.
    destruct (split_space x) as [|g [|sp fields]] eqn:Hs; try reflexivity.
    assert (contains_space x = true) as Hsp
      by (apply split_space_second; rewrite Hs; eauto).
    rewrite Hsp in Hx. discriminate.
Qed.

(** C9. The [Genus] and [Species] cells are not always the first and second
    whitespace-separated tokens of the name: with two spaces between the
    words the [Species] cell is the empty string although the name has a
    second word, and a single word followed by a space loads with an empty
    [Species] instead of raising [IndexError]. *)
Theorem load_species_data_misses_second_word :
  load_species_data [doubled_space_name] =
    Return [mkSpeciesRow doubled_space_name "Abarema" ""] /\
  whitespace_tokens doubled_space_name = ["Abarema"; "cochliocarpos"] /\
  load_species_data [trailing_space_name] =
    Return [mkSpeciesRow trailing_space_name "Abarema" ""] /\
  whitespace_tokens trailing_space_name = ["Abarema"].
Proof. repeat split; reflexivity. Qed.

(** What the two [split] calls compute. When every [TaxonName] holds a space character,
    [load_species_data] returns one row per value, in order, and each value
    reads [Genus], one space, [Species], followed by further fields each
    preceded by one space, where no field holds a space; [Genus] and
    [Species] are thus the text before the first space and the text between
    the first space and the next. A value without a space makes the call
    raise [IndexError]. *)
Theorem load_species_data_fields taxon_names :
  (Forall (fun name => contains_space name = true) taxon_names ->
   exists rows,
     load_species_data taxon_names = Return rows /\
     Forall2 (fun name row =>
                TaxonName row = name /\
                contains_space (Genus row) = false /\
                contains_space (Species row) = false /\
                exists fields,
                  Forall (fun field => contains_space field = false) fields /\
                  name = join_space (Genus row :: Species row :: fields))
             taxon_names rows) /\
  (Exists (fun name => contains_space name = false) taxon_names ->
   exists msg, load_species_data taxon_names = Raise (Exn IndexError msg)).
Proof.
  split.
  - intros Hall. unfold load_species_data.
    rewrite genus_column. cbn. rewrite (species_column _ Hall). cbn.
    eexists. split; [reflexivity|].
    induction Hall as [|name names Hname Hall IH]; cbn; constructor; [|exact IH].
    destruct (proj1 (split_space_second name) Hname) as (g & sp & fields & Hs).
    pose proof (split_space_fields name) as Hfields.
    pose proof (split_space_join name) as Hjoin.
    rewrite Hs in *. cbn [lookup list_lookup default TaxonName Genus Species fst snd].
    inversion Hfields as [|? ? Hg Hrest]; subst.
    inversion Hrest as [|? ? Hsp Hfs]; subst.
    repeat split; try assumption.
    exists fields. split; [assumption | now symmetry].
  - intros Hex. unfold load_species_data.
    rewrite genus_column. cbn. rewrite (species_column_raises _ Hex). cbn. eauto.
Qed.

Lemma load_species_data_fields_witness :
  Forall (fun name => contains_space name = true)
         ["Abarema cochliocarpos"; "Abies alba var. x"] /\
  exists rows,
    load_species_data ["Abarema cochliocarpos"; "Abies alba var. x"] = Return rows /\
    Forall2 (fun name row =>
               TaxonName row = name /\
               contains_space (Genus row) = false /\
               contains_space (Species row) = false /\
               exists fields,
                 Forall (fun field => contains_space field = false) fields /\
                 name = join_space (Genus row :: Species row :: fields))
            ["Abarema cochliocarpos"; "Abies alba var. x"] rows.
Proof.
  assert (H : Forall (fun name => contains_space name = true)
                     ["Abarema cochliocarpos"; "Abies alba var. x"])
    by (repeat constructor).
  split; [exact H|].
  exact (proj1 (load_species_data_fields _) H).
Defined.

End Loading.

(** ** Parallel batch fetcher *)

Section Batch.

Variable task : string -> string -> result value.

Local Abbreviation slot_for := (slot_for task).

Lemma list_setitem_length l idx v l' :
  list_setitem l idx v = Return l' -> length l' = length l.
Proof.
  unfold list_setitem.
  destruct (_ && _); [intros [= <-]; apply length_insert|].
  destruct (_ && _); [intros [= <-]; apply length_insert | discriminate].
Qed.

Lemma list_setitem_position l (i : nat) v :
  (i < length l)%nat -> list_setitem l (Z.of_nat i) v = Return (<[i := v]> l).
Proof.
  intros Hi. unfold list_setitem.
  replace ((0 <=? Z.of_nat i) && (Z.of_nat i <? Z.of_nat (length l))) with true
    by (symmetry; apply andb_true_intro; split; [apply Z.leb_le | apply Z.ltb_lt]; lia).
  now rewrite Nat2Z.id.
Qed.

Lemma list_setitem_raises l idx v v' e :
  list_setitem l idx v = Raise e -> list_setitem l idx v' = Raise e.
Proof.
  unfold list_setitem.
  destruct (_ && _); [discriminate|]. destruct (_ && _); [discriminate | auto].
Qed.

Lemma collect_length st future st' :
  collect st future = Return st' -> length (results st') = length (results st).
Proof.
  destruct future as [[v|e] idx]; unfold collect; cbn.
  - destruct (list_setitem (results st) idx v) as [l'|e'] eqn:Hset; cbn.
    + intros [= <-]. destruct (is_None v); cbn; eapply list_setitem_length; eauto.
    + destruct (is_Exception e'); [|discriminate].
      rewrite (list_setitem_raises _ _ _ (error_entry e') _ Hset). discriminate.
  - destruct (is_Exception e); [|discriminate].
    destruct (list_setitem (results st) idx (error_entry e)) as [l'|e'] eqn:Hset; cbn;
      [|discriminate].
    intros [= <-]. cbn. eapply list_setitem_length; eauto.
Qed.

Lemma for_each_collect_length futures st st' :
  for_each collect st futures = Return st' ->
  length (results st') = length (results st).
Proof.
  revert st. induction futures as [|future futures IH]; intros st; cbn.
  - now intros [= <-].
  - destruct (collect st future) as [st1|e] eqn:Hc; cbn; [|discriminate].
    intros Hrest. rewrite (IH _ Hrest). eapply collect_length; eauto.
Qed.

(** One turn of the loop for a future whose index is a position of the
    result list. *)
Lemma collect_position st outcome (i : nat) :
  (i < length (results st))%nat ->
  (forall e, outcome = Raise e -> is_Exception e = true) ->
  exists st',
    collect st (outcome, Z.of_nat i) = Return st' /\
    results st' = <[i := slot_of outcome]> (results st) /\
    (failed_count st' + success_count st' = S (failed_count st + success_count st))%nat.
Proof.
  intros Hi Hexc. unfold collect. cbn [fst snd]. destruct outcome as [v|e]; cbn.
  - rewrite (list_setitem_position _ _ _ Hi). cbn.
    destruct (is_None v); eexists; (split; [reflexivity|]); cbn; split; (reflexivity || lia).
  - rewrite (Hexc e eq_refl). rewrite (list_setitem_position _ _ _ Hi). cbn.
    eexists. split; [reflexivity|]. cbn. split; (reflexivity || lia).
Qed.

Variable queries : list Row.

Hypothesis task_raises_exceptions :
  forall genus species e, task genus species = Raise e -> is_Exception e = true.

Local Abbreviation futures := (submit_all task (batch_frame queries)).

Lemma futures_lookup p :
  futures !! p =
    (fun row => (task (Genus row) (Species row), Z.of_nat p)) <$> queries !! p.
Proof.
  unfold submit_all, batch_frame. rewrite list_lookup_fmap, list_lookup_imap.
  now destruct (queries !! p).
Qed.

Lemma collect_schedule schedule st :
  (forall p, p ∈ schedule -> (p < length queries)%nat) ->
  length (results st) = length queries ->
  exists st',
    for_each collect st (as_completed futures schedule) = Return st' /\
    length (results st') = length queries /\
    (failed_count st' + success_count st' =
       failed_count st + success_count st + length schedule)%nat /\
    forall i, results st' !! i =
                if decide (i ∈ schedule) then slot_for <$> queries !! i
                else results st !! i.
Proof.
  revert st. induction schedule as [|p schedule IH]; intros st Hrange Hlen.
  - exists st. cbn. split; [reflexivity|]. split; [exact Hlen|]. split; [lia|].
    intros i. destruct (decide (i ∈ [])) as [Hin|_]; [|reflexivity].
    now apply elem_of_nil in Hin.
  - assert (Hp : (p < length queries)%nat) by (apply Hrange; left).
    destruct (lookup_lt_is_Some_2 queries p Hp) as [row Hrow].
    unfold as_completed. cbn [omap list_omap]. rewrite futures_lookup, Hrow. cbn [fmap option_fmap option_map].
    destruct (collect_position st (task (Genus row) (Species row)) p) as (st1 & Hc & Hres & Hcount);
      [lia | intros e; apply task_raises_exceptions |].
    cbn [for_each]. rewrite Hc. cbn.
    destruct (IH st1) as (st' & Hrun & Hlen' & Hcount' & Hslots).
    { intros q Hq. apply Hrange. now right. }
    { rewrite Hres, length_insert. exact Hlen. }
    exists st'. split; [exact Hrun|]. split; [exact Hlen'|]. split; [cbn; lia|].
    intros i. rewrite Hslots, Hres.
    destruct (decide (i ∈ schedule)) as [Hin|Hnin].
    + rewrite decide_True by now right. reflexivity.
    + destruct (decide (i = p)) as [->|Hne].
      * rewrite decide_True by left.
        rewrite list_lookup_insert_eq by lia. now rewrite Hrow.
      * rewrite decide_False by (rewrite elem_of_cons; tauto).
        now rewrite list_lookup_insert_ne.
Qed.

(** The whole call on the frame of a batch: every slot holds what the task
    of its own row produced. *)
Lemma fetch_batch max_workers schedule :
  1 <= max_workers ->
  schedule ≡ₚ seq 0 (length queries) ->
  exists st,
    fetch_species_data_parallel task (batch_frame queries) max_workers schedule =
      Return st /\
    results st = slot_for <$> queries /\
    (failed_count st + success_count st = length queries)%nat.
Proof.
  intros Hworkers Hperm. unfold fetch_species_data_parallel, ThreadPoolExecutor.
  replace (max_workers <=? 0) with false by (symmetry; apply Z.leb_gt; lia). cbn.
  destruct (collect_schedule schedule
              (mkProgress (replicate (length (batch_frame queries)) VNone) 0 0))
    as (st & Hrun & Hlen & Hcount & Hslots).
  { intros p Hp. rewrite Hperm in Hp. apply elem_of_seq in Hp. lia. }
  { cbn. unfold batch_frame. now rewrite length_replicate, length_imap. }
  exists st. split; [exact Hrun|]. split.
  - apply list_eq. intros i. rewrite Hslots.
    destruct (decide (i ∈ schedule)) as [Hin|Hnin]; [now rewrite list_lookup_fmap|].
    assert (length queries <= i)%nat as Hi.
    { destruct (Nat.le_gt_cases (length queries) i) as [|Hlt]; [assumption|].
      destruct Hnin. rewrite Hperm. apply elem_of_seq. lia. }
    cbn. rewrite list_lookup_fmap.
    rewrite (lookup_ge_None_2 queries i Hi).
    apply lookup_ge_None_2. unfold batch_frame. rewrite length_replicate, length_imap. lia.
  - cbn in Hcount. rewrite Hcount, Hperm, length_seq. lia.
Qed.

End Batch.

Lemma flaky_task_raises_exceptions genus species e :
  flaky_task genus species = Raise e -> is_Exception e = true.
Proof.
  unfold flaky_task. destruct (String.eqb genus "Abies"); [|discriminate].
  now intros [= <-].
Qed.

Lemma completion_2_0_1 : [2; 0; 1]%nat ≡ₚ seq 0 (length three_queries).
Proof.
  cbn. change [2; 0; 1]%nat with ([2]%nat ++ [0; 1]%nat).
  rewrite (Permutation_app_comm [2]%nat [0;1]%nat). reflexivity.
Qed.

(** C1. Whatever the frame, the completion order and the outcomes of the
    lookups, a list returned by [fetch_species_data_parallel] is as long as
    the frame; and for every batch of queries, every [max_workers] of at
    least one and every completion order the call does return such a list,
    also when lookups return [None] or raise. *)
Theorem fetch_preserves_length task max_workers :
  (forall species_df schedule st,
     fetch_species_data_parallel task species_df max_workers schedule = Return st ->
     length (results st) = length species_df) /\
  (forall queries schedule,
     1 <= max_workers ->
     schedule ≡ₚ seq 0 (length queries) ->
     (forall genus species e, task genus species = Raise e -> is_Exception e = true) ->
     exists st,
       fetch_species_data_parallel task (batch_frame queries) max_workers schedule =
         Return st /\
       length (results st) = length queries).
Proof.
  split.
  - intros species_df schedule st. unfold fetch_species_data_parallel.
    destruct (ThreadPoolExecutor max_workers); cbn; [|discriminate].
    intros Hrun. rewrite (for_each_collect_length _ _ _ Hrun). cbn.
    apply length_replicate.
  - intros queries schedule Hworkers Hperm Hexc.
    destruct (fetch_batch task queries Hexc max_workers schedule Hworkers Hperm)
      as (st & Hrun & Hres & _).
    exists st. split; [exact Hrun|]. now rewrite Hres, length_fmap.
Qed.

Lemma fetch_preserves_length_witness :
  1 <= 2 /\
  [2; 0; 1]%nat ≡ₚ seq 0 (length three_queries) /\
  (forall genus species e, flaky_task genus species = Raise e -> is_Exception e = true) /\
  exists st,
    fetch_species_data_parallel flaky_task (batch_frame three_queries) 2 [2; 0; 1]%nat =
      Return st /\
    length (results st) = length three_queries.
Proof.
  split; [lia|]. split; [exact completion_2_0_1|].
  split; [exact flaky_task_raises_exceptions|].
  apply (proj2 (fetch_preserves_length flaky_task 2) three_queries [2; 0; 1]%nat);
    [lia | exact completion_2_0_1 | exact flaky_task_raises_exceptions].
Defined.

(** On a frame with the default index (labels [0 .. n-1]) and for every
    completion order, the list returned for a lookup that returns is the
    list obtained by applying the lookup to the rows one after the other in
    input order. *)
Theorem fetch_in_input_order task lookup queries max_workers schedule :
  1 <= max_workers ->
  schedule ≡ₚ seq 0 (length queries) ->
  (forall genus species, task genus species = Return (lookup genus species)) ->
  exists st,
    fetch_species_data_parallel task (batch_frame queries) max_workers schedule =
      Return st /\
    results st = sequential_map lookup queries /\
    forall i row, queries !! i = Some row ->
      results st !! i = Some (lookup (Genus row) (Species row)).
Proof.
  intros Hworkers Hperm Htask.
  assert (Hexc : forall genus species e,
             task genus species = Raise e -> is_Exception e = true)
    by (intros genus species e; rewrite Htask; discriminate).
  destruct (fetch_batch task queries Hexc max_workers schedule Hworkers Hperm)
    as (st & Hrun & Hres & _).
  assert (Hseq : results st = sequential_map lookup queries).
  { rewrite Hres. unfold sequential_map. apply list_fmap_ext.
    intros i row _. unfold slot_for. now rewrite Htask. }
  exists st. split; [exact Hrun|]. split; [exact Hseq|].
  intros i row Hrow. rewrite Hseq. unfold sequential_map.
  now rewrite list_lookup_fmap, Hrow.
Qed.

Lemma fetch_in_input_order_witness :
  1 <= 2 /\
  [2; 0; 1]%nat ≡ₚ seq 0 (length three_queries) /\
  (forall genus species, fake_task genus species = Return (fake_lookup genus species)) /\
  exists st,
    fetch_species_data_parallel fake_task (batch_frame three_queries) 2 [2; 0; 1]%nat =
      Return st /\
    results st = sequential_map fake_lookup three_queries /\
    forall i row, three_queries !! i = Some row ->
      results st !! i = Some (fake_lookup (Genus row) (Species row)).
Proof.
  split; [lia|]. split; [exact completion_2_0_1|]. split; [reflexivity|].
  apply (fetch_in_input_order fake_task fake_lookup three_queries 2 [2; 0; 1]%nat);
    [lia | exact completion_2_0_1 | reflexivity].
Defined.

(** On a frame with the default index (labels [0 .. n-1]), when the task of
    an item raises an exception, the slot of that item holds the mapping
    with the exception message under ["error"], every other slot holds what
    the task of its own item returned, and the call returns. *)
Theorem fetch_isolates_failures task queries max_workers schedule :
  1 <= max_workers ->
  schedule ≡ₚ seq 0 (length queries) ->
  (forall genus species e, task genus species = Raise e -> is_Exception e = true) ->
  exists st,
    fetch_species_data_parallel task (batch_frame queries) max_workers schedule =
      Return st /\
    forall i row, queries !! i = Some row ->
      (forall e, task (Genus row) (Species row) = Raise e ->
         results st !! i = Some (VDict [("error", VStr (exn_msg e))])) /\
      (forall v, task (Genus row) (Species row) = Return v ->
         results st !! i = Some v).
Proof.
  intros Hworkers Hperm Hexc.
  destruct (fetch_batch task queries Hexc max_workers schedule Hworkers Hperm)
    as (st & Hrun & Hres & _).
  exists st. split; [exact Hrun|].
  intros i row Hrow. rewrite Hres, list_lookup_fmap, Hrow. cbn. unfold slot_for.
  split; [intros e -> | intros v ->]; reflexivity.
Qed.

Lemma fetch_isolates_failures_witness :
  1 <= 2 /\
  [2; 0; 1]%nat ≡ₚ seq 0 (length three_queries) /\
  (forall genus species e, flaky_task genus species = Raise e -> is_Exception e = true) /\
  exists st,
    fetch_species_data_parallel flaky_task (batch_frame three_queries) 2 [2; 0; 1]%nat =
      Return st /\
    forall i row, three_queries !! i = Some row ->
      (forall e, flaky_task (Genus row) (Species row) = Raise e ->
         results st !! i = Some (VDict [("error", VStr (exn_msg e))])) /\
      (forall v, flaky_task (Genus row) (Species row) = Return v ->
         results st !! i = Some v).
Proof.
  split; [lia|]. split; [exact completion_2_0_1|].
  split; [exact flaky_task_raises_exceptions|].
  apply (fetch_isolates_failures flaky_task three_queries 2 [2; 0; 1]%nat);
    [lia | exact completion_2_0_1 | exact flaky_task_raises_exceptions].
Defined.

(** The run with the task that raises on the second query, evaluated. *)
Example fetch_flaky_run :
  fetch_species_data_parallel flaky_task (batch_frame three_queries) 2 [2; 0; 1]%nat =
    Return (mkProgress
              [VList [VDict [("country", VStr "Brazil")]];
               VDict [("error", VStr "Unexpected error")];
               VNone]
              2 1).
Proof. reflexivity. Qed.

(** The slots are addressed by index label: on a frame whose labels are
    not the positions, the results follow the labels, and a label outside
    the list makes the call raise. The statements above are about the
    frames of batches, whose labels are the positions. *)
Example fetch_relabelled_frame :
  fetch_species_data_parallel fake_task relabelled_frame 2 [0; 1]%nat =
    Return (mkProgress
              [VList [VDict [("country", VStr "France")]];
               VList [VDict [("country", VStr "Brazil")]]]
              0 2) /\
  fetch_species_data_parallel fake_task [(5, mkRow "Abarema" "cochliocarpos")] 2 [0]%nat =
    Raise (Exn IndexError "list assignment index out of range").
Proof. split; reflexivity. Qed.

(** No pool is made for a [max_workers] below one. *)
Example fetch_without_workers :
  fetch_species_data_parallel fake_task (batch_frame three_queries) 0 [0; 1; 2]%nat =
    Raise (Exn ValueError "max_workers must be greater than 0").
Proof. reflexivity. Qed.

(** The same for the task the source submits: over a transport whose
    faults are exceptions, the batch result is [request_data] applied to
    the rows in input order. *)
Corollary fetch_request_data_in_input_order requests_get queries max_workers schedule :
  (forall genus species e,
     transport_fault requests_get genus species e -> is_Exception e = true) ->
  1 <= max_workers ->
  schedule ≡ₚ seq 0 (length queries) ->
  exists st,
    fetch_species_data_parallel (request_data_task requests_get)
      (batch_frame queries) max_workers schedule = Return st /\
    results st = sequential_map (request_data_value requests_get) queries.
Proof.
  intros Hfaults Hworkers Hperm.
  assert (Htask : forall genus species,
             request_data_task requests_get genus species =
               Return (request_data_value requests_get genus species)).
  { intros genus species. unfold request_data_task, request_data_value.
    destruct (request_data_returns requests_get genus species (Hfaults genus species))
      as (lines & v & -> & _).
    reflexivity. }
  assert (Hexc : forall genus species e,
             request_data_task requests_get genus species = Raise e ->
             is_Exception e = true)
    by (intros genus species e; rewrite Htask; discriminate).
  destruct (fetch_batch _ queries Hexc max_workers schedule Hworkers Hperm)
    as (st & Hrun & Hres & _).
  exists st. split; [exact Hrun|].
  rewrite Hres. unfold sequential_map. apply list_fmap_ext.
  intros i row _. unfold slot_for. now rewrite Htask.
Qed.

(** The pairs of the Brazil and France records, read off the statement on
    the classifier. *)
Lemma extract_locations_classifies_witness :
  (Visualizer.extract_locations brazil_france).2 =
    [("Brazil", "Bahia"); ("Brazil", "Ceará")].
Proof.
  rewrite (proj1 (extract_locations_classifies brazil_france)). reflexivity.
Defined.

(** ** The batch fetcher addresses the slots by index label *)

(** C2. The returned list is not in input order on every frame. On the
    frame with index labels [1, 0] slot 0 holds the lookup of the second
    row and slot 1 the lookup of the first, in both completion orders,
    while mapping the lookup over the rows in input order gives the other
    order; and when both rows carry the label 0 the list depends on which
    lookup completes last. *)
Theorem fetch_relabelled_not_in_input_order :
  sequential_map fake_lookup (relabelled_frame.*2) =
    [VList [VDict [("country", VStr "Brazil")]];
     VList [VDict [("country", VStr "France")]]] /\
  fetch_species_data_parallel fake_task relabelled_frame 2 [0; 1]%nat =
    Return (mkProgress
              [VList [VDict [("country", VStr "France")]];
               VList [VDict [("country", VStr "Brazil")]]] 0 2) /\
  fetch_species_data_parallel fake_task relabelled_frame 2 [1; 0]%nat =
    Return (mkProgress
              [VList [VDict [("country", VStr "France")]];
               VList [VDict [("country", VStr "Brazil")]]] 0 2) /\
  fetch_species_data_parallel fake_task duplicate_labels_frame 2 [0; 1]%nat =
    Return (mkProgress [VList [VDict [("country", VStr "France")]]; VNone] 0 2) /\
  fetch_species_data_parallel fake_task duplicate_labels_frame 2 [1; 0]%nat =
    Return (mkProgress [VList [VDict [("country", VStr "Brazil")]]; VNone] 0 2).
Proof. repeat split; reflexivity. Qed.

(** C5. The error entry is not always stored in the slot of the failing
    item, and the call does not always return. On the frame with index
    labels [1, 0] whose first row fails, the error entry is in slot 1 and
    slot 0 holds the result of the other row; on the frame with labels
    [0, 7] whose second row fails, the assignment in the handler raises
    [IndexError] and the call returns no list. *)
Theorem fetch_relabelled_misplaces_error :
  flaky_task "Abies" "alba" = Raise (Exn PlainException "Unexpected error") /\
  fetch_species_data_parallel flaky_task relabelled_failing_frame 2 [0; 1]%nat =
    Return (mkProgress
              [VList [VDict [("country", VStr "Brazil")]];
               VDict [("error", VStr "Unexpected error")]] 1 1) /\
  fetch_species_data_parallel flaky_task relabelled_failing_frame 2 [1; 0]%nat =
    Return (mkProgress
              [VList [VDict [("country", VStr "Brazil")]];
               VDict [("error", VStr "Unexpected error")]] 1 1) /\
  fetch_species_data_parallel flaky_task filtered_frame 2 [0; 1]%nat =
    Raise (Exn IndexError "list assignment index out of range") /\
  fetch_species_data_parallel flaky_task filtered_frame 2 [1; 0]%nat =
    Raise (Exn IndexError "list assignment index out of range").
Proof. repeat split; reflexivity. Qed.

(** * Further properties of the sources *)

(** ** The collecting loop on any frame *)

Section Collecting.

Lemma as_completed_in_order {A : Type} (futures : list A) :
  as_completed futures (seq 0 (length futures)) = futures.
Proof.
  unfold as_completed.
  induction futures as [|x futures IH] using rev_ind; [reflexivity|].
  rewrite length_app. cbn. rewrite Nat.add_1_r, seq_S, omap_app. cbn.
  rewrite list_lookup_middle by reflexivity. cbn.
  f_equal. rewrite <- IH at 2. apply list_omap_ext.
  apply Forall2_same_length_lookup_2; [reflexivity|].
  intros i p q Hp Hq. rewrite Hp in Hq. injection Hq as <-.
  apply lookup_seq in Hp as [-> Hi]. cbn. now rewrite lookup_app_l.
Qed.

Lemma as_completed_all {A : Type} (futures : list A) schedule :
  schedule ≡ₚ seq 0 (length futures) -> as_completed futures schedule ≡ₚ futures.
Proof.
  intros Hperm. rewrite <- (as_completed_in_order futures) at 2.
  unfold as_completed. now rewrite Hperm.
Qed.

Lemma valid_index_position n (i : nat) : (i < n)%nat -> valid_index n (Z.of_nat i).
Proof. unfold valid_index. lia. Qed.

Lemma list_setitem_valid l idx v :
  valid_index (length l) idx -> exists l', list_setitem l idx v = Return l'.
Proof.
  unfold valid_index, list_setitem. intros Hidx.
  destruct (Z.leb_spec 0 idx); cbn.
  - replace (idx <? Z.of_nat (length l)) with true by (symmetry; apply Z.ltb_lt; lia).
    eauto.
  - replace (- Z.of_nat (length l) <=? idx) with true by (symmetry; apply Z.leb_le; lia).
    replace (idx <? 0) with true by (symmetry; apply Z.ltb_lt; lia).
    cbn. eauto.
Qed.


(** A turn of the loop on a valid index returns unless the task was
    interrupted. *)
Lemma collect_valid st outcome idx :
  valid_index (length (results st)) idx ->
  (forall e, outcome = Raise e -> is_Exception e = true) ->
  exists st', collect st (outcome, idx) = Return st' /\
              length (results st') = length (results st).
Proof.
  intros Hidx Hexc. unfold collect. cbn [fst snd].
  destruct outcome as [v|e]; cbn.
  - destruct (list_setitem_valid (results st) idx v Hidx) as [l' Hset].
    rewrite Hset. cbn. pose proof (list_setitem_length _ _ _ _ Hset).
    destruct (is_None v); eauto.
  - rewrite (Hexc e eq_refl).
    destruct (list_setitem_valid (results st) idx (error_entry e) Hidx) as [l' Hset].
    rewrite Hset. cbn. pose proof (list_setitem_length _ _ _ _ Hset). eauto.
Qed.


Lemma collect_interrupted st e idx :
  is_Exception e = false -> collect st (Raise e, idx) = Raise e.
Proof. intros He. unfold collect. cbn. now rewrite He. Qed.


Lemma for_each_interrupted futures st :
  Forall (fun future => valid_index (length (results st)) future.2) futures ->
  Exists (fun future => exists e, future.1 = Raise e /\ is_Exception e = false) futures ->
  exists e, for_each collect st futures = Raise e /\ is_Exception e = false.
Proof.
  intros Hvalid. revert st Hvalid.
  induction futures as [|[outcome idx] futures IH]; intros st Hvalid Hint.
  - inversion Hint.
  - cbn [for_each]. inversion Hvalid as [|? ? Hidx Hvalid']; subst. cbn in Hidx.
    destruct outcome as [v|e].
    + destruct (collect_valid st (Return v) idx Hidx) as (st1 & -> & Hlen);
        [discriminate|]. cbn.
      apply IH; [now rewrite Hlen|].
      inversion Hint as [? ? (e & He & _)|? ? Hlater]; subst; [|exact Hlater].
      cbn in He. discriminate He.
    + destruct (is_Exception e) eqn:He.
      * destruct (collect_valid st (Raise e) idx Hidx) as (st1 & -> & Hlen);
          [now intros ? [= <-]|]. cbn.
        apply IH; [now rewrite Hlen|].
        inversion Hint as [? ? (e' & Heq & He')|? ? Hlater]; subst; [|exact Hlater].
        cbn in Heq. injection Heq as <-. congruence.
      * rewrite (collect_interrupted st e idx He). cbn. eauto.
Qed.

(** A turn of the loop on a position of the list, with the two counters. *)
Lemma collect_counts st outcome (i : nat) :
  (i < length (results st))%nat ->
  (forall e, outcome = Raise e -> is_Exception e = true) ->
  exists st',
    collect st (outcome, Z.of_nat i) = Return st' /\
    results st' = <[i := slot_of outcome]> (results st) /\
    success_count st' =
      (success_count st + if succeeded outcome then 1 else 0)%nat /\
    failed_count st' =
      (failed_count st + if succeeded outcome then 0 else 1)%nat.
Proof.
  intros Hi Hexc. unfold collect. cbn [fst snd]. destruct outcome as [v|e]; cbn.
  - rewrite (list_setitem_position _ _ _ Hi). cbn.
    destruct (is_None v); eexists; (split; [reflexivity|]); cbn;
      repeat split; lia.
  - rewrite (Hexc e eq_refl). rewrite (list_setitem_position _ _ _ Hi). cbn.
    eexists. split; [reflexivity|]. cbn. repeat split; lia.
Qed.

(** The loop over futures whose indices are positions of the list. *)
Lemma for_each_positions futures st :
  Forall (fun future =>
            (0 <= future.2 < Z.of_nat (length (results st))) /\
            forall e, future.1 = Raise e -> is_Exception e = true) futures ->
  exists st',
    for_each collect st futures = Return st' /\
    length (results st') = length (results st) /\
    success_count st' =
      (success_count st +
       length (filter (fun future => succeeded future.1 = true) futures))%nat /\
    failed_count st' =
      (failed_count st +
       length (filter (fun future => succeeded future.1 = false) futures))%nat /\
    (forall i, (forall future, future ∈ futures -> future.2 <> Z.of_nat i) ->
       results st' !! i = results st !! i) /\
    (NoDup futures.*2 ->
     forall future, future ∈ futures ->
       results st' !! Z.to_nat future.2 = Some (slot_of future.1)).
Proof.
  revert st. induction futures as [|[outcome idx] futures IH]; intros st Hall.
  - exists st. cbn. repeat split; try lia. intros _ future Hin.
    now apply elem_of_nil in Hin.
  - inversion Hall as [|? ? [Hidx Hexc] Htail]; subst. cbn in Hidx, Hexc.
    destruct (collect_counts st outcome (Z.to_nat idx)) as (st1 & Hc & Hres & Hs & Hf);
      [lia | exact Hexc |].
    rewrite Z2Nat.id in Hc by lia.
    assert (Hlen1 : length (results st1) = length (results st))
      by (rewrite Hres; apply length_insert).
    destruct (IH st1) as (st' & Hrun & Hlen & Hs' & Hf' & Hkeep & Hslots).
    { rewrite Hlen1. exact Htail. }
    exists st'. cbn [for_each]. rewrite Hc.
    split; [exact Hrun|]. split; [congruence|].
    rewrite !filter_cons. cbn [fst].
    split; [|split; [|split]].
    + rewrite Hs', Hs. destruct (succeeded outcome); cbn.
      * rewrite decide_True by reflexivity. cbn. lia.
      * rewrite decide_False by discriminate. lia.
    + rewrite Hf', Hf. destruct (succeeded outcome); cbn.
      * rewrite decide_False by discriminate. lia.
      * rewrite decide_True by reflexivity. cbn. lia.
    + intros i Hfree. rewrite Hkeep.
      * rewrite Hres. apply list_lookup_insert_ne.
        intros <-. apply (Hfree (outcome, idx)); [left | cbn; lia].
      * intros future Hin. apply Hfree. now right.
    + cbn [fmap list_fmap snd]. intros Hnodup future Hin.
      apply NoDup_cons in Hnodup as [Hfresh Hnodup].
      apply elem_of_cons in Hin as [-> | Hin]; [|now apply Hslots].
      cbn [fst snd]. rewrite Hkeep.
      * rewrite Hres. apply list_lookup_insert_eq. lia.
      * intros future Hin Heq. apply Hfresh.
        rewrite Z2Nat.id in Heq by lia. rewrite <- Heq.
        apply list_elem_of_fmap. now exists future.
Qed.

End Collecting.

(** ** The batch fetcher on any frame *)

Section Frames.

Variable task : string -> string -> result value.

Lemma submit_all_elem outcome idx species_df :
  (outcome, idx) ∈ submit_all task species_df <->
  exists row, (idx, row) ∈ species_df /\ outcome = task (Genus row) (Species row).
Proof.
  unfold submit_all. rewrite list_elem_of_fmap. split.
  - intros ([idx' row] & [= -> ->] & Hin). eauto.
  - intros (row & Hin & ->). now exists (idx, row).
Qed.

Lemma submit_all_labels species_df : (submit_all task species_df).*2 = species_df.*1.
Proof.
  unfold submit_all. rewrite <- list_fmap_compose. apply list_fmap_ext.
  now intros i [idx row] _.
Qed.

Lemma submit_all_count (Q : result value -> bool) species_df :
  length (filter (fun future => Q future.1 = true) (submit_all task species_df)) =
  length (filter (fun row => Q (task (Genus row) (Species row)) = true) species_df.*2).
Proof.
  induction species_df as [|[idx row] species_df IH]; [reflexivity|].
  cbn [submit_all fmap list_fmap snd]. rewrite !filter_cons. cbn [fst].
  fold (submit_all task species_df).
  destruct (Q (task (Genus row) (Species row))).
  - rewrite !decide_True by reflexivity. cbn. now rewrite IH.
  - rewrite !decide_False by discriminate. exact IH.
Qed.

Lemma batch_frame_rows (queries : list Row) : (batch_frame queries).*2 = queries.
Proof.
  apply list_eq. intros i. unfold batch_frame.
  rewrite list_lookup_fmap, list_lookup_imap. now destruct (queries !! i).
Qed.

Lemma batch_frame_labels (queries : list Row) :
  (batch_frame queries).*1 = Z.of_nat <$> seq 0 (length queries).
Proof.
  apply list_eq. intros i. unfold batch_frame.
  rewrite !list_lookup_fmap, list_lookup_imap.
  destruct (queries !! i) as [row|] eqn:Hrow; cbn.
  - rewrite lookup_seq_lt by (eapply lookup_lt_Some; eauto). reflexivity.
  - rewrite lookup_seq_ge by (now apply lookup_ge_None). reflexivity.
Qed.

(** The call on a frame whose labels are positions of the result list. *)
Lemma fetch_labelled species_df max_workers schedule :
  1 <= max_workers ->
  schedule ≡ₚ seq 0 (length species_df) ->
  Forall (fun labelled => 0 <= labelled.1 < Z.of_nat (length species_df)) species_df ->
  (forall genus species e, task genus species = Raise e -> is_Exception e = true) ->
  exists st,
    fetch_species_data_parallel task species_df max_workers schedule = Return st /\
    success_count st =
      length (filter (fun row => succeeded (task (Genus row) (Species row)) = true)
                     species_df.*2) /\
    failed_count st =
      length (filter (fun row => negb (succeeded (task (Genus row) (Species row))) = true)
                     species_df.*2) /\
    (NoDup species_df.*1 ->
     forall idx row, (idx, row) ∈ species_df ->
       results st !! Z.to_nat idx = Some (slot_of (task (Genus row) (Species row)))).
Proof.
  intros Hworkers Hperm Hlabels Hexc.
  unfold fetch_species_data_parallel, ThreadPoolExecutor.
  replace (max_workers <=? 0) with false by (symmetry; apply Z.leb_gt; lia). cbn.
  assert (Hall : as_completed (submit_all task species_df) schedule ≡ₚ
                 submit_all task species_df).
  { apply as_completed_all. unfold submit_all. now rewrite length_fmap. }
  destruct (for_each_positions (as_completed (submit_all task species_df) schedule)
              (mkProgress (replicate (length species_df) VNone) 0 0))
    as (st & Hrun & _ & Hs & Hf & _ & Hslots).
  { rewrite Forall_forall. intros [outcome idx] Hin. rewrite Hall in Hin.
    apply submit_all_elem in Hin as (row & Hin & ->). cbn. rewrite length_replicate.
    split; [|intros e; apply Hexc].
    rewrite Forall_forall in Hlabels. exact (Hlabels _ Hin). }
  exists st. split; [exact Hrun|]. cbn in Hs, Hf. split; [|split].
  - rewrite Hs, Hall. apply (submit_all_count succeeded).
  - rewrite Hf, <- (submit_all_count (fun outcome => negb (succeeded outcome))), Hall.
    f_equal. apply list_filter_iff. intros future.
    destruct (succeeded future.1); cbn; split; congruence.
  - intros Hnodup idx row Hin.
    apply (Hslots (ltac:(now rewrite Hall, submit_all_labels))
             (task (Genus row) (Species row), idx)).
    rewrite Hall. apply submit_all_elem. eauto.
Qed.

End Frames.

Lemma batch_frame_positions (queries : list Row) :
  Forall (fun labelled => 0 <= labelled.1 < Z.of_nat (length (batch_frame queries)))
         (batch_frame queries).
Proof.
  rewrite Forall_forall. intros [idx row] Hin.
  apply list_elem_of_lookup in Hin as [i Hi]. unfold batch_frame in *.
  rewrite length_imap. rewrite list_lookup_imap in Hi.
  destruct (queries !! i) as [row'|] eqn:Hrow; [|discriminate].
  injection Hi as <- <-. apply lookup_lt_Some in Hrow. cbn. lia.
Qed.

Lemma batch_frame_length (queries : list Row) :
  length (batch_frame queries) = length queries.
Proof. apply length_imap. Qed.

Lemma as_completed_nil {A : Type} schedule : as_completed (@nil A) schedule = [].
Proof. unfold as_completed. induction schedule as [|p schedule IH]; [reflexivity | exact IH]. Qed.

(** X1. The two counts of the summary line: the successful ones are the
    rows whose lookup returned a value other than [None], the failed ones
    are the rows whose lookup returned [None] or raised, and together they
    are all the rows. *)
Theorem fetch_counts task queries max_workers schedule :
  1 <= max_workers ->
  schedule ≡ₚ seq 0 (length queries) ->
  (forall genus species e, task genus species = Raise e -> is_Exception e = true) ->
  exists st,
    fetch_species_data_parallel task (batch_frame queries) max_workers schedule =
      Return st /\
    success_count st =
      length (filter (fun row => succeeded (task (Genus row) (Species row)) = true)
                     queries) /\
    failed_count st =
      length (filter (fun row => negb (succeeded (task (Genus row) (Species row))) = true)
                     queries) /\
    (success_count st + failed_count st = length queries)%nat.
Proof.
  intros Hworkers Hperm Hexc.
  destruct (fetch_labelled task (batch_frame queries) max_workers schedule Hworkers)
    as (st & Hrun & Hs & Hf & _);
    [now rewrite batch_frame_length | apply batch_frame_positions | exact Hexc |].
  destruct (fetch_batch task queries Hexc max_workers schedule Hworkers Hperm)
    as (st' & Hrun' & _ & Hsum).
  rewrite Hrun in Hrun'. injection Hrun' as <-.
  rewrite batch_frame_rows in Hs, Hf.
  exists st. split; [exact Hrun|]. split; [exact Hs|]. split; [exact Hf | lia].
Qed.

Lemma fetch_counts_witness :
  1 <= 2 /\
  [2; 0; 1]%nat ≡ₚ seq 0 (length three_queries) /\
  (forall genus species e, flaky_task genus species = Raise e -> is_Exception e = true) /\
  exists st,
    fetch_species_data_parallel flaky_task (batch_frame three_queries) 2 [2; 0; 1]%nat =
      Return st /\
    success_count st = 1%nat /\ failed_count st = 2%nat.
Proof.
  split; [lia|]. split; [exact completion_2_0_1|].
  split; [exact flaky_task_raises_exceptions|].
  destruct (fetch_counts flaky_task three_queries 2 [2; 0; 1]%nat)
    as (st & Hrun & Hs & Hf & _);
    [lia | exact completion_2_0_1 | exact flaky_task_raises_exceptions |].
  exists st. split; [exact Hrun|]. split; [exact Hs | exact Hf].
Defined.

(** X2. The completion order does not show in what the call returns: for
    any two orders in which the futures of a batch complete, the returned
    list and the two counts are the same, error entries included. *)
Theorem fetch_any_completion_order task queries max_workers schedule1 schedule2 :
  1 <= max_workers ->
  schedule1 ≡ₚ seq 0 (length queries) ->
  schedule2 ≡ₚ seq 0 (length queries) ->
  (forall genus species e, task genus species = Raise e -> is_Exception e = true) ->
  fetch_species_data_parallel task (batch_frame queries) max_workers schedule1 =
  fetch_species_data_parallel task (batch_frame queries) max_workers schedule2.
Proof.
  intros Hworkers Hperm1 Hperm2 Hexc.
  destruct (fetch_batch task queries Hexc max_workers schedule1 Hworkers Hperm1)
    as (st1 & Hrun1 & Hres1 & _).
  destruct (fetch_batch task queries Hexc max_workers schedule2 Hworkers Hperm2)
    as (st2 & Hrun2 & Hres2 & _).
  destruct (fetch_labelled task (batch_frame queries) max_workers schedule1 Hworkers)
    as (st1' & Hrun1' & Hs1 & Hf1 & _);
    [now rewrite batch_frame_length | apply batch_frame_positions | exact Hexc |].
  destruct (fetch_labelled task (batch_frame queries) max_workers schedule2 Hworkers)
    as (st2' & Hrun2' & Hs2 & Hf2 & _);
    [now rewrite batch_frame_length | apply batch_frame_positions | exact Hexc |].
  rewrite Hrun1 in Hrun1'. injection Hrun1' as <-.
  rewrite Hrun2 in Hrun2'. injection Hrun2' as <-.
  rewrite Hrun1, Hrun2. f_equal.
  destruct st1 as [r1 f1 s1], st2 as [r2 f2 s2]. cbn in *. congruence.
Qed.

Lemma fetch_any_completion_order_witness :
  1 <= 2 /\
  [2; 0; 1]%nat ≡ₚ seq 0 (length three_queries) /\
  [0; 1; 2]%nat ≡ₚ seq 0 (length three_queries) /\
  (forall genus species e, flaky_task genus species = Raise e -> is_Exception e = true) /\
  fetch_species_data_parallel flaky_task (batch_frame three_queries) 2 [2; 0; 1]%nat =
  fetch_species_data_parallel flaky_task (batch_frame three_queries) 2 [0; 1; 2]%nat.
Proof.
  split; [lia|]. split; [exact completion_2_0_1|]. split; [reflexivity|].
  split; [exact flaky_task_raises_exceptions|].
  apply (fetch_any_completion_order flaky_task three_queries 2);
    [lia | exact completion_2_0_1 | reflexivity | exact flaky_task_raises_exceptions].
Defined.

(** X3. On an empty frame the call returns the empty list and two zero
    counts without running any task, for every [max_workers] of at least
    one. *)
Theorem fetch_empty_frame task max_workers schedule :
  1 <= max_workers ->
  fetch_species_data_parallel task [] max_workers schedule = Return (mkProgress [] 0 0).
Proof.
  intros Hworkers. unfold fetch_species_data_parallel, ThreadPoolExecutor.
  replace (max_workers <=? 0) with false by (symmetry; apply Z.leb_gt; lia).
  cbn. now rewrite as_completed_nil.
Qed.

Lemma fetch_empty_frame_witness :
  1 <= 10 /\
  fetch_species_data_parallel interrupted_task [] 10 [3; 1]%nat =
    Return (mkProgress [] 0 0).
Proof. split; [lia|]. apply fetch_empty_frame. lia. Defined.

(** X4. An interrupt is not turned into an error entry: when the task of
    some row of a batch raises an exception that is not an [Exception]
    ([KeyboardInterrupt], [SystemExit]), the call raises such an exception
    and returns no list. *)
Theorem fetch_propagates_interrupts task queries max_workers schedule row e :
  1 <= max_workers ->
  schedule ≡ₚ seq 0 (length queries) ->
  row ∈ queries ->
  task (Genus row) (Species row) = Raise e ->
  is_Exception e = false ->
  exists e',
    fetch_species_data_parallel task (batch_frame queries) max_workers schedule =
      Raise e' /\
    is_Exception e' = false.
Proof.
  intros Hworkers Hperm Hrow Htask He.
  unfold fetch_species_data_parallel, ThreadPoolExecutor.
  replace (max_workers <=? 0) with false by (symmetry; apply Z.leb_gt; lia). cbn.
  assert (Hall : as_completed (submit_all task (batch_frame queries)) schedule ≡ₚ
                 submit_all task (batch_frame queries)).
  { apply as_completed_all. unfold submit_all.
    now rewrite length_fmap, batch_frame_length. }
  apply for_each_interrupted.
  - rewrite Forall_forall. intros [outcome idx] Hin. rewrite Hall in Hin.
    apply submit_all_elem in Hin as (row' & Hin & _). cbn.
    rewrite length_replicate.
    pose proof (batch_frame_positions queries) as Hpos.
    rewrite Forall_forall in Hpos. specialize (Hpos _ Hin). cbn in Hpos.
    unfold valid_index. lia.
  - apply Exists_exists.
    rewrite <- (batch_frame_rows queries) in Hrow.
    apply list_elem_of_fmap in Hrow as ([idx row'] & -> & Hin). cbn in *.
    exists (task (Genus row') (Species row'), idx). split.
    + rewrite Hall. apply submit_all_elem. eauto.
    + exists e. auto.
Qed.

Lemma fetch_propagates_interrupts_witness :
  1 <= 2 /\
  [2; 0; 1]%nat ≡ₚ seq 0 (length three_queries) /\
  mkRow "Abies" "alba" ∈ three_queries /\
  interrupted_task "Abies" "alba" = Raise (Exn KeyboardInterrupt "") /\
  is_Exception (Exn KeyboardInterrupt "") = false /\
  exists e',
    fetch_species_data_parallel interrupted_task (batch_frame three_queries) 2
      [2; 0; 1]%nat = Raise e' /\
    is_Exception e' = false.
Proof.
  assert (Hin : mkRow "Abies" "alba" ∈ three_queries)
    by (apply list_elem_of_further, list_elem_of_here).
  split; [lia|]. split; [exact completion_2_0_1|]. split; [exact Hin|].
  split; [reflexivity|]. split; [reflexivity|].
  apply (fetch_propagates_interrupts interrupted_task three_queries 2 [2; 0; 1]%nat
           (mkRow "Abies" "alba") (Exn KeyboardInterrupt ""));
    [lia | exact completion_2_0_1 | exact Hin | reflexivity | reflexivity].
Defined.



(** X6. On a frame whose labels are distinct positions of the result list,
    the slot at the label of a row holds what the lookup of that row
    produced: the returned list is aligned with the index labels of the
    frame, in every completion order. *)
Theorem fetch_follows_labels task species_df max_workers schedule :
  1 <= max_workers ->
  schedule ≡ₚ seq 0 (length species_df) ->
  (forall genus species e, task genus species = Raise e -> is_Exception e = true) ->
  Forall (fun labelled => 0 <= labelled.1 < Z.of_nat (length species_df)) species_df ->
  NoDup species_df.*1 ->
  exists st,
    fetch_species_data_parallel task species_df max_workers schedule = Return st /\
    forall idx row, (idx, row) ∈ species_df ->
      results st !! Z.to_nat idx = Some (slot_of (task (Genus row) (Species row))).
Proof.
  intros Hworkers Hperm Hexc Hlabels Hnodup.
  destruct (fetch_labelled task species_df max_workers schedule Hworkers Hperm Hlabels Hexc)
    as (st & Hrun & _ & _ & Hslots).
  exists st. split; [exact Hrun | exact (Hslots Hnodup)].
Qed.

Lemma fetch_follows_labels_witness :
  1 <= 2 /\
  [0; 1]%nat ≡ₚ seq 0 (length relabelled_frame) /\
  (forall genus species e, fake_task genus species = Raise e -> is_Exception e = true) /\
  Forall (fun labelled => 0 <= labelled.1 < Z.of_nat (length relabelled_frame))
         relabelled_frame /\
  NoDup relabelled_frame.*1 /\
  exists st,
    fetch_species_data_parallel fake_task relabelled_frame 2 [0; 1]%nat = Return st /\
    forall idx row, (idx, row) ∈ relabelled_frame ->
      results st !! Z.to_nat idx = Some (slot_of (fake_task (Genus row) (Species row))).
Proof.
  assert (Hexc : forall genus species e,
             fake_task genus species = Raise e -> is_Exception e = true)
    by (intros genus species e; discriminate).
  assert (Hlabels : Forall (fun labelled =>
                              0 <= labelled.1 < Z.of_nat (length relabelled_frame))
                           relabelled_frame)
    by (repeat constructor; cbn; lia).
  assert (Hnodup : NoDup relabelled_frame.*1).
  { cbn. apply NoDup_cons. split; [|apply NoDup_singleton].
    intros Hin. apply list_elem_of_singleton in Hin. discriminate. }
  split; [lia|]. split; [reflexivity|]. split; [exact Hexc|].
  split; [exact Hlabels|]. split; [exact Hnodup|].
  apply (fetch_follows_labels fake_task relabelled_frame 2 [0; 1]%nat);
    [lia | reflexivity | exact Hexc | exact Hlabels | exact Hnodup].
Defined.

(** ** Remote lookup and existence probe, further *)

(** Where a value other than [None] comes from: the [TSGeolinks] of the
    first element of [results] of a dict body, with nothing printed. *)
Lemma request_data_value_origin requests_get genus species lines v :
  request_data requests_get genus species = Return (lines, v) ->
  v <> VNone ->
  lines = [] /\ truthy v = true /\
  exists d e rest,
    transport_body requests_get genus species (VDict d) /\
    assoc "results" d = Some (VList (VDict e :: rest)) /\
    assoc "TSGeolinks" e = Some v.
Proof.
  intros Hrun Hv.
  destruct (transport_cases requests_get genus species) as [[e He] | [body Hbody]].
  - unfold request_data in Hrun.
    rewrite (request_data_body_fault _ _ _ e He) in Hrun. cbn in Hrun.
    destruct (is_RequestException e); [injection Hrun as _ <-; now destruct Hv|].
    destruct (is_parsing_error e); [injection Hrun as _ <-; now destruct Hv|].
    destruct (is_Exception e); [injection Hrun as _ <-; now destruct Hv | discriminate].
  - unfold request_data in Hrun.
    rewrite (request_data_body_parsed _ _ _ _ Hbody) in Hrun.
    destruct body as [|b|z|s|l|d]; cbn in Hrun;
      try (injection Hrun as _ <-; now destruct Hv).
    unfold dict_get in Hrun.
    destruct (assoc "results" d) as [r|] eqn:Hres; cbn in Hrun;
      [|injection Hrun as _ <-; now destruct Hv].
    destruct r as [|b|z|s|[|first rest]|d']; cbn in Hrun;
      rewrite ?orb_true_r in Hrun; cbn in Hrun;
      try (injection Hrun as _ <-; now destruct Hv).
    destruct first as [|b|z|s|l|e]; cbn in Hrun;
      try (injection Hrun as _ <-; now destruct Hv).
    unfold dict_get in Hrun.
    destruct (assoc "TSGeolinks" e) as [g|] eqn:Hgeo; cbn in Hrun;
      [|injection Hrun as _ <-; now destruct Hv].
    destruct (truthy g) eqn:Hg; injection Hrun as <- <-; [|now destruct Hv].
    split; [reflexivity|]. split; [exact Hg|]. now exists d, e, rest.
Qed.

(** X7. What [request_data] returns is [None] or a value that is true in a
    condition: it never returns an empty list, so the callers' tests
    [data is None] and [not geo_data] agree. *)
Theorem request_data_none_or_truthy requests_get genus species lines v :
  request_data requests_get genus species = Return (lines, v) ->
  v = VNone \/ truthy v = true.
Proof.
  intros Hrun. destruct v; try (left; reflexivity); right;
    now apply (request_data_value_origin _ _ _ _ _ Hrun).
Qed.

Lemma request_data_none_or_truthy_witness :
  request_data (serving two_results_body) "Abarema" "cochliocarpos" =
    Return ([], VList [VDict [("country", VStr "Brazil")]]) /\
  (VList [VDict [("country", VStr "Brazil")]] = VNone \/
   truthy (VList [VDict [("country", VStr "Brazil")]]) = true).
Proof.
  split; [reflexivity|].
  exact (request_data_none_or_truthy (serving two_results_body) "Abarema" "cochliocarpos"
           [] _ eq_refl).
Defined.

(** X8. Data implies existence: whenever [request_data] returns a value
    other than [None], [species_exists] on the same responses returns
    [True]. *)
Theorem request_data_implies_exists requests_get genus species lines v :
  request_data requests_get genus species = Return (lines, v) ->
  v <> VNone ->
  species_exists requests_get genus species = Return true.
Proof.
  intros Hrun Hv.
  destruct (request_data_value_origin _ _ _ _ _ Hrun Hv)
    as (_ & _ & d & e & rest & Hbody & Hres & _).
  destruct (species_exists_parsed _ _ _ _ Hbody) as (b & -> & Hiff).
  f_equal. apply Hiff. now exists d, (VDict e), rest.
Qed.

Lemma request_data_implies_exists_witness :
  request_data (serving two_results_body) "Abarema" "cochliocarpos" =
    Return ([], VList [VDict [("country", VStr "Brazil")]]) /\
  VList [VDict [("country", VStr "Brazil")]] <> VNone /\
  species_exists (serving two_results_body) "Abarema" "cochliocarpos" = Return true.
Proof.
  split; [reflexivity|]. split; [discriminate|].
  apply (request_data_implies_exists (serving two_results_body) "Abarema" "cochliocarpos"
           [] (VList [VDict [("country", VStr "Brazil")]]));
    [reflexivity | discriminate].
Defined.

(** X9. A value other than [None] returned by [request_data] is the
    [TSGeolinks] entry of the first element of [results] of a response that
    passed the status check and decoded to a dict, and nothing was
    printed. *)
Theorem request_data_data_origin requests_get genus species lines v :
  request_data requests_get genus species = Return (lines, v) ->
  v <> VNone ->
  lines = [] /\
  exists d e rest,
    transport_body requests_get genus species (VDict d) /\
    assoc "results" d = Some (VList (VDict e :: rest)) /\
    assoc "TSGeolinks" e = Some v.
Proof.
  intros Hrun Hv.
  destruct (request_data_value_origin _ _ _ _ _ Hrun Hv) as (Hlines & _ & Horigin).
  auto.
Qed.

Lemma request_data_data_origin_witness :
  request_data (serving two_results_body) "Abarema" "cochliocarpos" =
    Return ([], VList [VDict [("country", VStr "Brazil")]]) /\
  VList [VDict [("country", VStr "Brazil")]] <> VNone /\
  @nil string = [] /\
  exists d e rest,
    transport_body (serving two_results_body) "Abarema" "cochliocarpos" (VDict d) /\
    assoc "results" d = Some (VList (VDict e :: rest)) /\
    assoc "TSGeolinks" e = Some (VList [VDict [("country", VStr "Brazil")]]).
Proof.
  split; [reflexivity|]. split; [discriminate|].
  apply (request_data_data_origin (serving two_results_body) "Abarema" "cochliocarpos"
           [] (VList [VDict [("country", VStr "Brazil")]]));
    [reflexivity | discriminate].
Defined.

(** X10. Neither function absorbs an interrupt: when the request raises an
    exception that is not an [Exception] ([KeyboardInterrupt],
    [SystemExit]), [request_data] and [species_exists] raise it, and
    [request_data] prints nothing. *)
Theorem lookup_propagates_interrupts requests_get genus species e :
  transport_fault requests_get genus species e ->
  is_Exception e = false ->
  request_data requests_get genus species = Raise e /\
  species_exists requests_get genus species = Raise e.
Proof.
  intros He Hexc. split.
  - unfold request_data. rewrite (request_data_body_fault _ _ _ e He). cbn.
    destruct e as [[] msg]; try discriminate; reflexivity.
  - unfold species_exists. rewrite (species_exists_body_fault _ _ _ e He). cbn.
    now rewrite Hexc.
Qed.

Lemma lookup_propagates_interrupts_witness :
  transport_fault (failing interrupt) "Abarema" "cochliocarpos" interrupt /\
  is_Exception interrupt = false /\
  request_data (failing interrupt) "Abarema" "cochliocarpos" = Raise interrupt /\
  species_exists (failing interrupt) "Abarema" "cochliocarpos" = Raise interrupt.
Proof.
  split; [apply failing_fault|]. split; [reflexivity|].
  apply (lookup_propagates_interrupts (failing interrupt) "Abarema" "cochliocarpos"
           interrupt (failing_fault _ _ _) eq_refl).
Defined.

(** X11. Which line [request_data] prints for a failed request: the
    [Request error] line for an exception of the [requests] library, the
    [Data parsing error] line for a [KeyError], [IndexError], [ValueError]
    or [TypeError] outside that library, the [Unexpected error] line for
    any other [Exception]; each line ends with the message of the
    exception. *)
Theorem request_data_diagnostic_line requests_get genus species e :
  transport_fault requests_get genus species e ->
  is_Exception e = true ->
  request_data requests_get genus species =
    Return ([(if is_RequestException e then "Request error for "
              else if is_parsing_error e then "Data parsing error for "
              else "Unexpected error for ")
             +:+ genus +:+ " " +:+ species +:+ ": " +:+ exn_msg e], VNone).
Proof.
  intros He Hexc. unfold request_data.
  rewrite (request_data_body_fault _ _ _ e He). cbn.
  destruct (is_RequestException e); [reflexivity|].
  destruct (is_parsing_error e); [reflexivity|].
  now rewrite Hexc.
Qed.

Lemma not_found_response_fault genus species :
  transport_fault not_found_response genus species (Exn HTTPError "404 Client Error").
Proof. now eapply status_fault. Qed.

Lemma request_data_diagnostic_line_witness :
  transport_fault not_found_response "Abarema" "cochliopos"
    (Exn HTTPError "404 Client Error") /\
  is_Exception (Exn HTTPError "404 Client Error") = true /\
  request_data not_found_response "Abarema" "cochliopos" =
    Return (["Request error for Abarema cochliopos: 404 Client Error"], VNone).
Proof.
  split; [apply not_found_response_fault|]. split; [reflexivity|].
  exact (request_data_diagnostic_line not_found_response "Abarema" "cochliopos"
           (Exn HTTPError "404 Client Error") (not_found_response_fault _ _) eq_refl).
Defined.

(** ** The [check] command *)

Lemma transport_body_unique requests_get genus species body body' :
  transport_body requests_get genus species body ->
  transport_body requests_get genus species body' ->
  body = body'.
Proof.
  intros (response & Hget & _ & Hjs) (response' & Hget' & _ & Hjs').
  rewrite Hget in Hget'. injection Hget' as <-.
  rewrite Hjs in Hjs'. now injection Hjs'.
Qed.

Lemma transport_fault_no_body requests_get genus species e body :
  transport_fault requests_get genus species e ->
  transport_body requests_get genus species body -> False.
Proof.
  intros He (response & Hget & Hst & Hjs).
  destruct He as [Hget' | response' Hget' Hst' | response' Hget' _ Hjs'];
    rewrite Hget in Hget'; try discriminate;
    injection Hget' as <-; congruence.
Qed.

(** X12. [pygts check] always ends in [sys.exit] after printing one line:
    with status 0 exactly when the response decoded to a dict whose
    [results] is a non-empty list, with status 1 otherwise, in particular
    whenever the request raised an exception. *)
Theorem cli_check_exit_status requests_get genus species :
  (forall e, transport_fault requests_get genus species e -> is_Exception e = true) ->
  exists line code,
    Cli.cli_check requests_get genus species = ([line], Cli.sys_exit code) /\
    (code = 0 \/ code = 1) /\
    (code = 0 <->
     exists d first rest,
       transport_body requests_get genus species (VDict d) /\
       assoc "results" d = Some (VList (first :: rest))) /\
    (forall e, transport_fault requests_get genus species e -> code = 1).
Proof.
  intros Hexc. unfold Cli.cli_check.
  destruct (transport_cases requests_get genus species) as [[e He] | [body Hbody]].
  - unfold species_exists. rewrite (species_exists_body_fault _ _ _ e He). cbn.
    rewrite (Hexc e He). eexists _, 1. split; [reflexivity|].
    split; [now right|]. split; [|reflexivity].
    split; [discriminate|].
    intros (d & first & rest & Hbody & _).
    now destruct (transport_fault_no_body _ _ _ _ _ He Hbody).
  - destruct (species_exists_parsed _ _ _ _ Hbody) as (b & -> & Hiff).
    destruct b.
    + eexists _, 0. split; [reflexivity|]. split; [now left|]. split.
      * split; [|reflexivity]. intros _.
        destruct (proj1 Hiff eq_refl) as (d & first & rest & -> & Hres).
        now exists d, first, rest.
      * intros e He. now destruct (transport_fault_no_body _ _ _ _ _ He Hbody).
    + eexists _, 1. split; [reflexivity|]. split; [now right|]. split.
      * split; [discriminate|].
        intros (d & first & rest & Hbody' & Hres).
        rewrite (transport_body_unique _ _ _ _ _ Hbody Hbody') in Hiff.
        assert (false = true) as Habs by (apply Hiff; now exists d, first, rest).
        discriminate Habs.
      * reflexivity.
Qed.

Lemma cli_check_exit_status_witness :
  (forall e, transport_fault (failing timed_out) "Abarema" "cochliocarpos" e ->
             is_Exception e = true) /\
  exists line code,
    Cli.cli_check (failing timed_out) "Abarema" "cochliocarpos" =
      ([line], Cli.sys_exit code) /\
    code = 1.
Proof.
  split; [now apply failing_only_exceptions|].
  destruct (cli_check_exit_status (failing timed_out) "Abarema" "cochliocarpos"
              (failing_only_exceptions timed_out _ _ eq_refl))
    as (line & code & Hrun & _ & _ & Hfault).
  exists line, code. split; [exact Hrun|].
  exact (Hfault timed_out (failing_fault _ _ _)).
Defined.

(** The two runs of the command, evaluated. *)
Example cli_check_runs :
  Cli.cli_check (serving two_results_body) "Abarema" "cochliocarpos" =
    (["✓ Abarema cochliocarpos exists in the database"],
     Raise (Exn SystemExit "0")) /\
  Cli.cli_check (failing timed_out) "Abarema" "cochliocarpos" =
    (["✗ Abarema cochliocarpos not found in the database"],
     Raise (Exn SystemExit "1")).
Proof. split; reflexivity. Qed.

(** ** Location classifier, further *)

Section ClassifierFurther.

Import Visualizer.

Lemma extract_countries geo_data c :
  c ∈ (extract_locations geo_data).1 <-> c ∈ omap whole_country_of geo_data.
Proof.
  unfold extract_locations. cbn [fst].
  rewrite elem_of_elements, classify_countries. now rewrite list_elem_of_omap.
Qed.

Lemma extract_pairs geo_data :
  (extract_locations geo_data).2 = omap pair_of geo_data.
Proof. unfold extract_locations. cbn [snd]. apply classify_pairs. Qed.

Lemma contributes_once entry :
  pair_of entry = None \/ whole_country_of entry = None.
Proof.
  unfold pair_of, whole_country_of.
  destruct (present (country entry)); cbn; [|now left].
  destruct (present (province entry)); cbn; auto.
Qed.

(** X13. Classifying two lists of records put one after the other gives the
    pairs of the first followed by the pairs of the second, and the
    countries of either. *)
Theorem extract_locations_app geo_data1 geo_data2 :
  (extract_locations (geo_data1 ++ geo_data2)).2 =
    (extract_locations geo_data1).2 ++ (extract_locations geo_data2).2 /\
  forall c, c ∈ (extract_locations (geo_data1 ++ geo_data2)).1 <->
            c ∈ (extract_locations geo_data1).1 \/ c ∈ (extract_locations geo_data2).1.
Proof.
  split.
  - rewrite !extract_pairs. apply omap_app.
  - intros c. rewrite !extract_countries, omap_app. apply elem_of_app.
Qed.

(** X14. The order of the records decides only the order of the pairs:
    two inputs with the same records in different orders give the same
    countries and the same pairs up to their order. *)
Theorem extract_locations_permutation geo_data1 geo_data2 :
  geo_data1 ≡ₚ geo_data2 ->
  (extract_locations geo_data1).2 ≡ₚ (extract_locations geo_data2).2 /\
  forall c, c ∈ (extract_locations geo_data1).1 <-> c ∈ (extract_locations geo_data2).1.
Proof.
  intros Hperm. split.
  - rewrite !extract_pairs. now rewrite Hperm.
  - intros c. rewrite !extract_countries. now rewrite Hperm.
Qed.

Lemma extract_locations_permutation_witness :
  brazil_twice ≡ₚ rev brazil_twice /\
  (extract_locations brazil_twice).2 ≡ₚ (extract_locations (rev brazil_twice)).2 /\
  forall c, c ∈ (extract_locations brazil_twice).1 <->
            c ∈ (extract_locations (rev brazil_twice)).1.
Proof.
  split; [apply Permutation_rev|].
  exact (extract_locations_permutation brazil_twice (rev brazil_twice)
           (Permutation_rev brazil_twice)).
Defined.

(** X15. Both outputs are empty exactly when no record has a country: this
    is the case in which [plot_species_distribution] reports that no
    location data was found. *)
Theorem extract_locations_empty_iff geo_data :
  extract_locations geo_data = ([], []) <->
  Forall (fun entry => country entry = None \/ country entry = Some EmptyString)
         geo_data.
Proof.
  split.
  - intros Hout. rewrite Forall_forall. intros entry Hin.
    apply present_None.
    destruct (present (country entry)) as [c|] eqn:Hc; [|reflexivity].
    destruct (present (province entry)) as [p|] eqn:Hp.
    + assert ((c, p) ∈ (extract_locations geo_data).2) as Hpair.
      { rewrite extract_pairs, list_elem_of_omap. exists entry. split; [exact Hin|].
        unfold pair_of. now rewrite Hc, Hp. }
      rewrite Hout in Hpair. now apply elem_of_nil in Hpair.
    + assert (c ∈ (extract_locations geo_data).1) as Hcountry.
      { rewrite extract_countries, list_elem_of_omap. exists entry. split; [exact Hin|].
        unfold whole_country_of. now rewrite Hc, Hp. }
      rewrite Hout in Hcountry. now apply elem_of_nil in Hcountry.
  - intros Hall. induction Hall as [|entry geo_data Hentry _ IH]; [reflexivity|].
    rewrite <- IH. unfold extract_locations, classify. cbn [foldl].
    now rewrite (visit_without_country _ _ Hentry).
Qed.

(** X16. The outputs never hold more entries than the input holds records:
    every record adds at most one pair or one country. *)
Theorem extract_locations_size geo_data :
  (length (extract_locations geo_data).1 + length (extract_locations geo_data).2
   <= length geo_data)%nat.
Proof.
  rewrite extract_pairs.
  assert (length (extract_locations geo_data).1 <=
          length (omap whole_country_of geo_data))%nat as Hcountries.
  { apply submseteq_length, NoDup_submseteq.
    - unfold extract_locations. cbn [fst]. apply NoDup_elements.
    - intros c. now rewrite extract_countries. }
  assert (length (omap whole_country_of geo_data) + length (omap pair_of geo_data)
          <= length geo_data)%nat; [|lia].
  clear Hcountries. induction geo_data as [|entry geo_data IH]; [reflexivity|].
  cbn [omap list_omap length].
  destruct (contributes_once entry) as [-> | ->];
    [destruct (whole_country_of entry) | destruct (pair_of entry)]; cbn; lia.
Qed.

End ClassifierFurther.

Lemma whole_country_of_Some entry c :
  whole_country_of entry = Some c <->
  Visualizer.country entry = Some c /\ c <> EmptyString /\
  (Visualizer.province entry = None \/ Visualizer.province entry = Some EmptyString).
Proof.
  unfold whole_country_of. split.
  - destruct (Visualizer.present (Visualizer.country entry)) as [c'|] eqn:Hc;
      [|discriminate]. cbn.
    destruct (Visualizer.present (Visualizer.province entry)) eqn:Hp; [discriminate|].
    intros [= ->]. apply present_Some in Hc as [Hc Hne]. apply present_None in Hp. auto.
  - intros (Hc & Hne & Hp).
    rewrite (proj2 (present_Some _ _) (conj Hc Hne)). cbn.
    now rewrite (proj2 (present_None _) Hp).
Qed.

Lemma extract_country_iff geo_data c :
  c ∈ (Visualizer.extract_locations geo_data).1 <->
  exists entry, entry ∈ geo_data /\
    Visualizer.country entry = Some c /\ c <> EmptyString /\
    (Visualizer.province entry = None \/
     Visualizer.province entry = Some EmptyString).
Proof.
  rewrite extract_countries, list_elem_of_omap.
  split; intros (entry & Hin & H); exists entry; (split; [exact Hin|]);
    now apply whole_country_of_Some.
Qed.

(** ** Marking the polygons *)

Section MarkingPolygons.

Import Marking.

Lemma mask_lookup provinces country province i row :
  provinces !! i = Some row ->
  mask provinces country province !! i =
    Some (bool_decide (row = (country, province))).
Proof.
  intros Hrow. unfold mask. rewrite list_lookup_fmap, Hrow. cbn. f_equal.
  destruct row as [admin name]. cbn.
  destruct (String.eqb_spec admin country) as [->|Hadmin];
    destruct (String.eqb_spec name province) as [->|Hname]; cbn;
    (rewrite bool_decide_eq_true_2 by congruence) ||
    (rewrite bool_decide_eq_false_2 by congruence); reflexivity.
Qed.

Lemma mark_from provinces pairs column :
  length column = length provinces ->
  length (foldl (fun column pair => assign_true column (mask provinces pair.1 pair.2))
                column pairs) = length provinces /\
  forall i row present,
    provinces !! i = Some row -> column !! i = Some present ->
    foldl (fun column pair => assign_true column (mask provinces pair.1 pair.2))
          column pairs !! i = Some (present || bool_decide (row ∈ pairs)).
Proof.
  revert column. induction pairs as [|[country province] pairs IH]; intros column Hlen.
  - cbn. split; [exact Hlen|]. intros i row present _ ->.
    rewrite bool_decide_eq_false_2 by apply not_elem_of_nil. now rewrite orb_false_r.
  - cbn [foldl fst snd].
    assert (Hlen1 : length (assign_true column (mask provinces country province)) =
                    length provinces).
    { unfold assign_true, mask. rewrite length_zip_with, length_fmap. lia. }
    destruct (IH _ Hlen1) as [Hlen' Hslots]. split; [exact Hlen'|].
    intros i row present Hrow Hcol.
    rewrite (Hslots i row (if bool_decide (row = (country, province))
                           then true else present) Hrow).
    + f_equal. destruct (decide (row = (country, province))) as [->|Hne].
      * rewrite bool_decide_eq_true_2 by reflexivity. cbn.
        rewrite bool_decide_eq_true_2 by left. now rewrite orb_true_r.
      * rewrite (bool_decide_eq_false_2 _ Hne).
        destruct (decide (row ∈ pairs)) as [Hin|Hnin].
        -- rewrite !bool_decide_eq_true_2; [reflexivity | now right | exact Hin].
        -- rewrite !bool_decide_eq_false_2; [reflexivity | | exact Hnin].
           rewrite elem_of_cons. tauto.
    + unfold assign_true. rewrite lookup_zip_with, Hcol. cbn.
      now rewrite (mask_lookup _ _ _ _ _ Hrow).
Qed.

(** X17. After the marking loop the flag of a province row is [True]
    exactly when its ([admin], [name]) is one of the pairs, with both
    fields equal character by character; the column keeps one flag per row,
    and the province layer is drawn exactly when some row matches. *)
Theorem mark_provinces_flags provinces pairs :
  length (mark_provinces provinces pairs) = length provinces /\
  (forall i row, provinces !! i = Some row ->
     mark_provinces provinces pairs !! i = Some (bool_decide (row ∈ pairs))) /\
  (any (mark_provinces provinces pairs) = true <->
   exists row, row ∈ provinces /\ row ∈ pairs).
Proof.
  unfold mark_provinces.
  destruct (mark_from provinces pairs (replicate (length provinces) false))
    as [Hlen Hslots]; [apply length_replicate|].
  assert (Hflags : forall i row, provinces !! i = Some row ->
            foldl (fun column pair => assign_true column (mask provinces pair.1 pair.2))
                  (replicate (length provinces) false) pairs !! i =
              Some (bool_decide (row ∈ pairs))).
  { intros i row Hrow. rewrite (Hslots i row false Hrow); [reflexivity|].
    apply lookup_replicate_2. eapply lookup_lt_Some; eauto. }
  split; [exact Hlen|]. split; [exact Hflags|].
  unfold any. rewrite existsb_exists. split.
  - intros (present & Hin & ->). apply list_elem_of_In in Hin.
    apply list_elem_of_lookup in Hin as [i Hi].
    destruct (lookup_lt_is_Some_2 provinces i) as [row Hrow].
    { rewrite <- Hlen. eapply lookup_lt_Some; eauto. }
    rewrite (Hflags i row Hrow) in Hi. injection Hi as Hi.
    apply bool_decide_eq_true_1 in Hi. exists row. split; [|exact Hi].
    apply list_elem_of_lookup. eauto.
  - intros (row & Hrow & Hin). apply list_elem_of_lookup in Hrow as [i Hrow].
    exists true. split; [|reflexivity].
    apply list_elem_of_In, list_elem_of_lookup. exists i.
    rewrite (Hflags i row Hrow). now rewrite bool_decide_eq_true_2.
Qed.

(** X18. From the records to the map: a country polygon is marked exactly
    when some record names that country and carries no province, and a
    province polygon is marked exactly when some record names its [admin]
    as country and its [name] as province; the names must match exactly. *)
Theorem polygons_marked_from_records geo_data names provinces :
  (forall i name, names !! i = Some name ->
     (isin names (Visualizer.extract_locations geo_data).1 !! i = Some true <->
      exists entry, entry ∈ geo_data /\
        Visualizer.country entry = Some name /\ name <> EmptyString /\
        (Visualizer.province entry = None \/
         Visualizer.province entry = Some EmptyString))) /\
  (forall i admin name, provinces !! i = Some (admin, name) ->
     (mark_provinces provinces (Visualizer.extract_locations geo_data).2 !! i = Some true <->
      exists entry, entry ∈ geo_data /\
        Visualizer.country entry = Some admin /\ admin <> EmptyString /\
        Visualizer.province entry = Some name /\ name <> EmptyString)).
Proof.
  split.
  - intros i name Hname. unfold isin. rewrite list_lookup_fmap, Hname. cbn.
    rewrite <- extract_country_iff.
    split.
    + intros [= Hin]. now apply bool_decide_eq_true_1 in Hin.
    + intros Hin. now rewrite bool_decide_eq_true_2.
  - intros i admin name Hrow.
    destruct (mark_from provinces (Visualizer.extract_locations geo_data).2
                (replicate (length provinces) false)) as [_ Hslots];
      [apply length_replicate|].
    unfold mark_provinces. rewrite (Hslots i (admin, name) false Hrow)
      by (apply lookup_replicate_2; eapply lookup_lt_Some; eauto).
    cbn [orb]. rewrite extract_pairs.
    split.
    + intros [= Hin]. apply bool_decide_eq_true_1 in Hin.
      apply list_elem_of_omap in Hin as (entry & Hin & Hpair). exists entry.
      split; [exact Hin|]. unfold pair_of in Hpair.
      destruct (Visualizer.present (Visualizer.country entry)) as [c|] eqn:Hc;
        [|discriminate]. cbn in Hpair.
      destruct (Visualizer.present (Visualizer.province entry)) as [p|] eqn:Hp;
        [|discriminate]. injection Hpair as -> ->.
      apply present_Some in Hc as [Hc Hcne]. apply present_Some in Hp as [Hp Hpne].
      auto.
    + intros (entry & Hin & Hc & Hcne & Hp & Hpne).
      rewrite bool_decide_eq_true_2; [reflexivity|].
      apply list_elem_of_omap. exists entry. split; [exact Hin|].
      unfold pair_of.
      rewrite (proj2 (present_Some _ _) (conj Hc Hcne)). cbn.
      now rewrite (proj2 (present_Some _ _) (conj Hp Hpne)).
Qed.

End MarkingPolygons.

(** ** Loading the tabular input, further *)

Section LoadingFurther.

Import Utils.

Lemma split_space_field field :
  contains_space field = false -> split_space field = [field].
Proof.
  induction field as [|c field IH]; cbn; [reflexivity|].
  destruct (Ascii.eqb c space); cbn; [discriminate|].
  intros Hfield. now rewrite (IH Hfield).
Qed.

Lemma split_space_cons field s :
  contains_space field = false ->
  split_space (field +:+ String space s) = field :: split_space s.
Proof.
  induction field as [|c field IH]; intros Hfield.
  - reflexivity.
  - change (String c field +:+ String space s)
      with (String c (field +:+ String space s)).
    cbn [split_space]. cbn [contains_space] in Hfield.
    destruct (Ascii.eqb c space); [discriminate|].
    now rewrite (IH Hfield).
Qed.

(** Splitting what was joined gives the fields back. *)
Lemma split_space_join_fields fields :
  fields <> [] ->
  Forall (fun field => contains_space field = false) fields ->
  split_space (join_space fields) = fields.
Proof.
  intros Hne Hall. induction Hall as [|field fields Hfield Hall IH]; [now destruct Hne|].
  destruct fields as [|field' fields]; [now apply split_space_field|].
  cbn [join_space]. rewrite (split_space_cons _ _ Hfield). f_equal.
  apply IH. discriminate.
Qed.

(** Loading a column of names whose first two fields are known. *)
Lemma load_species_data_split {A : Type} (rows : list A) (name genus species : A -> string) :
  (forall row, row ∈ rows ->
     exists more, split_space (name row) = genus row :: species row :: more) ->
  load_species_data (name <$> rows) =
    Return ((fun row => mkSpeciesRow (name row) (genus row) (species row)) <$> rows).
Proof.
  intros Hsplit. unfold load_species_data.
  rewrite (apply_total (fun x => getitem (split_space x) 0)
             (fun name => default EmptyString (split_space name !! 0%nat))).
  2:{ intros x Hin. apply list_elem_of_fmap in Hin as (row & -> & Hin).
      unfold getitem. destruct (Hsplit row Hin) as [more ->]. reflexivity. }
  cbn.
  rewrite (apply_total (fun x => getitem (split_space x) 1)
             (fun name => default EmptyString (split_space name !! 1%nat))).
  2:{ intros x Hin. apply list_elem_of_fmap in Hin as (row & -> & Hin).
      unfold getitem. destruct (Hsplit row Hin) as [more ->]. reflexivity. }
  cbn. f_equal.
  induction rows as [|row rows IH]; [reflexivity|].
  cbn [fmap list_fmap zip_with].
  destruct (Hsplit row) as [more ->]; [left|]. cbn.
  f_equal. apply IH. intros row' Hin. apply Hsplit. now right.
Qed.

(** X19. Round trip through the name column: for rows written as a genus,
    one space, an epithet and further words each after one space, where no
    word holds a space, [load_species_data] returns for every row the name
    as written, the genus and the epithet. *)
Theorem load_species_data_round_trip (rows : list (string * string * list string)) :
  Forall (all_words (fun word => contains_space word = false)) rows ->
  load_species_data (name_of <$> rows) =
    Return ((fun words => mkSpeciesRow (name_of words) words.1.1 words.1.2) <$> rows).
Proof.
  intros Hall. apply load_species_data_split.
  rewrite Forall_forall in Hall. intros words Hin.
  destruct (Hall words Hin) as (Hg & Hsp & Hmore).
  exists words.2. unfold name_of.
  apply split_space_join_fields; [discriminate|].
  now repeat constructor.
Qed.

Lemma load_species_data_round_trip_witness :
  Forall (all_words (fun word => contains_space word = false))
         [("Abarema", "cochliocarpos", []); ("Abies", "alba", ["var."; "x"])] /\
  load_species_data ["Abarema cochliocarpos"; "Abies alba var. x"] =
    Return [mkSpeciesRow "Abarema cochliocarpos" "Abarema" "cochliocarpos";
            mkSpeciesRow "Abies alba var. x" "Abies" "alba"].
Proof.
  assert (H : Forall (all_words (fun word => contains_space word = false))
                     [("Abarema", "cochliocarpos", []); ("Abies", "alba", ["var."; "x"])])
    by (repeat constructor).
  split; [exact H|]. exact (load_species_data_round_trip _ H).
Defined.

Lemma string_app_assoc (s1 s2 s3 : string) : (s1 +:+ s2) +:+ s3 = s1 +:+ (s2 +:+ s3).
Proof.
  induction s1 as [|c s1 IH]; [reflexivity|].
  change ((String c s1 +:+ s2) +:+ s3) with (String c ((s1 +:+ s2) +:+ s3)).
  change (String c s1 +:+ (s2 +:+ s3)) with (String c (s1 +:+ (s2 +:+ s3))).
  now rewrite IH.
Qed.

Lemma string_app_nil_r (s : string) : s +:+ EmptyString = s.
Proof.
  induction s as [|c s IH]; [reflexivity|].
  change (String c s +:+ EmptyString) with (String c (s +:+ EmptyString)).
  now rewrite IH.
Qed.

Lemma contains_whitespace_space word :
  contains_whitespace word = false -> contains_space word = false.
Proof.
  induction word as [|c word IH]; cbn; [reflexivity|].
  intros Hword. apply orb_false_elim in Hword as [Hc Hword]. rewrite (IH Hword).
  destruct (Ascii.eqb_spec c space) as [->|_]; [discriminate Hc | reflexivity].
Qed.

Lemma tokens_from_word acc word s :
  contains_whitespace word = false ->
  tokens_from acc (word +:+ s) = tokens_from (acc +:+ word) s.
Proof.
  revert acc. induction word as [|c word IH]; intros acc Hword.
  - now rewrite string_app_nil_r.
  - cbn [contains_whitespace] in Hword. apply orb_false_elim in Hword as [Hc Hword].
    change (String c word +:+ s) with (String c (word +:+ s)).
    cbn [tokens_from]. rewrite Hc, (IH _ Hword), string_app_assoc. reflexivity.
Qed.

(** On words that are not empty and hold no white space, joined by single
    spaces, the whitespace-separated tokens are the words. *)
Lemma whitespace_tokens_join words :
  Forall (fun word => word <> EmptyString /\ contains_whitespace word = false) words ->
  whitespace_tokens (join_space words) = words.
Proof.
  unfold whitespace_tokens.
  induction 1 as [|word words [Hne Hword] Hall IH]; [reflexivity|].
  assert (Hnonempty : String.eqb word "" = false) by now apply String.eqb_neq.
  destruct words as [|word' words].
  - cbn [join_space]. rewrite <- (string_app_nil_r word) at 1.
    rewrite (tokens_from_word _ _ _ Hword).
    change (EmptyString +:+ word) with word. cbn [tokens_from].
    now rewrite Hnonempty.
  - change (join_space (word :: word' :: words))
      with (word +:+ String space (join_space (word' :: words))).
    rewrite (tokens_from_word _ _ _ Hword).
    change (EmptyString +:+ word) with word.
    cbn [tokens_from]. change (is_whitespace space) with true. cbn iota.
    rewrite Hnonempty. now rewrite IH.
Qed.

(** X20. Where the two readings of a name agree: for rows whose words are
    not empty, hold no white space and are separated by single spaces,
    the [Genus] and [Species] that [load_species_data] returns are the
    first and second whitespace-separated tokens of the name. *)
Theorem load_species_data_tokens (rows : list (string * string * list string)) :
  Forall (all_words (fun word => word <> EmptyString /\ contains_whitespace word = false))
         rows ->
  exists loaded,
    load_species_data (name_of <$> rows) = Return loaded /\
    length loaded = length rows /\
    Forall (fun row =>
              whitespace_tokens (TaxonName row) !! 0%nat = Some (Genus row) /\
              whitespace_tokens (TaxonName row) !! 1%nat = Some (Species row))
           loaded.
Proof.
  intros Hall. eexists. split; [|split].
  - apply load_species_data_split.
    rewrite Forall_forall in Hall. intros words Hin.
    destruct (Hall words Hin) as ([_ Hg] & [_ Hsp] & Hmore).
    exists words.2. unfold name_of.
    apply split_space_join_fields; [discriminate|].
    repeat constructor; try now apply contains_whitespace_space.
    eapply Forall_impl; [exact Hmore|]. intros word [_ Hword].
    now apply contains_whitespace_space.
  - apply length_fmap.
  - rewrite Forall_fmap. eapply Forall_impl; [exact Hall|].
    intros words (Hg & Hsp & Hmore). unfold compose, name_of.
    cbn [TaxonName Genus Species].
    rewrite whitespace_tokens_join by (now repeat constructor). split; reflexivity.
Qed.

Lemma load_species_data_tokens_witness :
  Forall (all_words (fun word => word <> EmptyString /\ contains_whitespace word = false))
         [("Abarema", "cochliocarpos", [])] /\
  exists loaded,
    load_species_data ["Abarema cochliocarpos"] = Return loaded /\
    length loaded = 1%nat /\
    Forall (fun row =>
              whitespace_tokens (TaxonName row) !! 0%nat = Some (Genus row) /\
              whitespace_tokens (TaxonName row) !! 1%nat = Some (Species row))
           loaded.
Proof.
  assert (H : Forall (all_words (fun word =>
                        word <> EmptyString /\ contains_whitespace word = false))
                     [("Abarema", "cochliocarpos", [])]).
  { repeat constructor; discriminate. }
  split; [exact H|]. exact (load_species_data_tokens _ H).
Defined.

End LoadingFurther.
